(** * Text patching helpers of operator-sdk's [internal/testutils]

    A shallow embedding of [internal/testutils/utils.go]: the four
    file-mutating helpers ([ReplaceInFile], [ReplaceRegexInFile],
    [UncommentCode], [AllowProjectBeMultiGroup]) over an explicit file
    system, and the prerequisite bookkeeping of [TestContext]
    ([InstallPrerequisites], [UninstallPrerequisites]) over an explicit
    cluster.

    Go strings and byte slices are lists of 8-bit characters, Go [int]s
    are [Z], an [error] result is a value of [result]. *)

From stdpp Require Import gmap strings list.
From Stdlib Require Import ZArith Ascii.
From Equations Require Import Equations.

Local Open Scope Z_scope.

Abbreviation bytes := (list ascii).

(** A string literal seen as a byte sequence. *)
Definition str (s : string) : bytes := String.list_ascii_of_string s.

(** The line feed ['\n'] and the carriage return ['\r']. *)
Definition LF : ascii := "010"%char.
Definition CR : ascii := "013"%char.

(** Go's [len]. *)
Definition len (s : bytes) : Z := Z.of_nat (length s).

(** Go's slices [s[:i]], [s[i:]] on in-range indices. *)
Definition slice_to (s : bytes) (i : Z) : bytes := take (Z.to_nat i) s.
Definition slice_from (s : bytes) (i : Z) : bytes := drop (Z.to_nat i) s.

(** ** Package [unicode/utf8]: the width of the first rune *)
Module utf8.

Definition byte_val (c : ascii) : Z := Z.of_N (N_of_ascii c).

Definition between (lo hi : Z) (c : ascii) : bool :=
  (lo <=? byte_val c) && (byte_val c <=? hi).

(** Size and accepted range of the second byte, by leading byte (the
    tables [first] and [acceptRanges]); [None] for ASCII and for bytes
    that cannot start a sequence. *)
Definition first (c : ascii) : option (nat * (Z * Z)) :=
  let b := byte_val c in
  if (194 <=? b) && (b <=? 223) then Some (2%nat, (128, 191))
  else if b =? 224 then Some (3%nat, (160, 191))
  else if (225 <=? b) && (b <=? 236) then Some (3%nat, (128, 191))
  else if b =? 237 then Some (3%nat, (128, 159))
  else if (238 <=? b) && (b <=? 239) then Some (3%nat, (128, 191))
  else if b =? 240 then Some (4%nat, (144, 191))
  else if (241 <=? b) && (b <=? 243) then Some (4%nat, (128, 191))
  else if b =? 244 then Some (4%nat, (128, 143))
  else None.

(** The [size] result of [DecodeRuneInString]. *)
Definition DecodeRuneWidth (s : bytes) : nat :=
  match s with
  | [] => 0%nat
  | s0 :: t =>
      match first s0 with
      | None => 1%nat
      | Some (sz, (lo, hi)) =>
          if (length s <? sz)%nat then 1%nat
          else match t with
               | s1 :: t1 =>
                   if negb (between lo hi s1) then 1%nat
                   else if (sz <=? 2)%nat then 2%nat
                   else match t1 with
                        | s2 :: t2 =>
                            if negb (between 128 191 s2) then 1%nat
                            else if (sz <=? 3)%nat then 3%nat
                            else match t2 with
                                 | s3 :: _ =>
                                     if negb (between 128 191 s3) then 1%nat
                                     else 4%nat
                                 | [] => 1%nat
                                 end
                        | [] => 1%nat
                        end
               | [] => 1%nat
               end
      end
  end.

(** [RuneCountInString]: one rune per decoded sequence, an invalid byte
    counting as a rune of width one. *)
Fixpoint rune_count (fuel : nat) (s : bytes) : Z :=
  match fuel, s with
  | _, [] => 0
  | O, _ => 0
  | S fuel', _ => 1 + rune_count fuel' (drop (DecodeRuneWidth s) s)
  end.

Definition RuneCountInString (s : bytes) : Z := rune_count (length s) s.

End utf8.

(** ** Package [strings] *)
Module strings.

(** [len(s) >= len(prefix) && s[:len(prefix)] == prefix] *)
Definition HasPrefix (s prefix : bytes) : bool :=
  bool_decide (len prefix <= len s) &&
  bool_decide (slice_to s (len prefix) = prefix).

Definition TrimPrefix (s prefix : bytes) : bytes :=
  if HasPrefix s prefix then slice_from s (len prefix) else s.

(** The index of the first instance of [substr] in [s], if any. *)
Fixpoint index_of (s substr : bytes) : option nat :=
  if HasPrefix s substr then Some 0%nat
  else match s with
       | [] => None
       | _ :: s' => S <$> index_of s' substr
       end.

(** [Index] returns -1 when [substr] is not present in [s]. *)
Definition Index (s substr : bytes) : Z :=
  match index_of s substr with
  | Some i => Z.of_nat i
  | None => -1
  end.

Definition Contains (s substr : bytes) : bool := 0 <=? Index s substr.

(** The counting loop of [Count] for a non-empty [substr]:
    [for { i := Index(s, substr); if i == -1 { return n }; n++;
           s = s[i+len(substr):] }]. (A [substr] of one byte is counted
    by a loop over the bytes, with the same result.) *)
Fixpoint count_loop (fuel : nat) (n : Z) (s substr : bytes) : Z :=
  match fuel with
  | O => n
  | S fuel' =>
      let i := Index s substr in
      if i =? -1 then n
      else count_loop fuel' (n + 1) (slice_from s (i + len substr)) substr
  end.

Definition Count (s substr : bytes) : Z :=
  if len substr =? 0 then utf8.RuneCountInString s + 1
  else count_loop (S (length s)) 0 s substr.

(** The replacement loop of [Replace]; [rest] is [s[start:]] and
    [first] tells the iteration [i == 0]. *)
Fixpoint replace_loop (n : nat) (first : bool) (rest old new : bytes) : bytes :=
  match n with
  | O => rest
  | S n' =>
      let j :=
        if len old =? 0
        then (if first then 0 else Z.of_nat (utf8.DecodeRuneWidth rest))
        else Index rest old in
      slice_to rest j ++ new ++
      replace_loop n' false (slice_from rest (j + len old)) old new
  end.

Definition Replace (s old new : bytes) (n : Z) : bytes :=
  if bool_decide (old = new) || (n =? 0) then s
  else
    let m := Count s old in
    if m =? 0 then s
    else
      let n := if (n <? 0) || (m <? n) then m else n in
      replace_loop (Z.to_nat n) true s old new.

End strings.

(** ** Package [bufio]: a [Scanner] with the default [ScanLines] split *)
Module bufio.

(** The largest buffer a [Scanner] allocates. *)
Definition MaxScanTokenSize : Z := 64 * 1024.

Record Scanner := mkScanner {
  input : bytes;        (* what is left to read *)
  token : bytes;        (* the last token, returned by [Text] *)
  stopped : bool        (* the scan has ended, by EOF or by an error *)
}.

Definition NewScanner (src : bytes) : Scanner := mkScanner src [] false.

(** [dropCR] removes one trailing carriage return. *)
Definition dropCR (data : bytes) : bytes :=
  match reverse data with
  | c :: r => if decide (c = CR) then reverse r else data
  | [] => data
  end.

(** The bytes before the first line feed, and what follows that line
    feed if there is one. *)
Fixpoint cut_line (data : bytes) : bytes * option bytes :=
  match data with
  | [] => ([], None)
  | c :: data' =>
      if decide (c = LF) then ([], Some data')
      else let '(l, r) := cut_line data' in (c :: l, r)
  end.

(** One call of [Scan]. A line that does not fit the buffer, that is
    with [MaxScanTokenSize] bytes or more before its line feed, stops
    the scan with [ErrTooLong]; so does the end of the input. *)
Definition Scan (s : Scanner) : bool * Scanner :=
  if stopped s then (false, s)
  else match input s with
       | [] => (false, mkScanner [] [] true)
       | _ =>
           let '(line, after) := cut_line (input s) in
           if MaxScanTokenSize <=? len line
           then (false, mkScanner (input s) [] true)
           else (true, mkScanner (default [] after) (dropCR line) false)
       end.

Definition Text (s : Scanner) : bytes := token s.

End bufio.

(** ** Results and the state monad of effectful code *)

Inductive Errno := ENOENT | EACCES.

Inductive error :=
| PathError (op : string) (path : string) (errno : Errno)   (* package [os] *)
| errorString (msg : bytes)              (* [errors.New], [fmt.Errorf] *)
| SyntaxError (code : string) (expr : bytes)   (* package [regexp/syntax] *)
| ExitError (argv : list string).                  (* package [os/exec] *)

Inductive result (A : Type) :=
| Ok (a : A)
| Err (e : error).
Arguments Ok {A} a.
Arguments Err {A} e.

Definition M (S A : Type) : Type := S → result A * S.

Definition fail {S A} (e : error) : M S A := λ s, (Err e, s).

#[export] Instance M_ret {S} : MRet (M S) := λ A a s, (Ok a, s).
#[export] Instance M_bind {S} : MBind (M S) := λ A B k m s,
  match m s with
  | (Ok a, s') => k a s'
  | (Err e, s') => (Err e, s')
  end.

(** ** Package [os] and [io/ioutil]: files with permission bits *)
Module os.

Record File := mkFile { content : bytes; mode : Z }.

Inductive Event :=
| EvStat (path : string)
| EvReadFile (path : string)
| EvWriteFile (path : string) (data : bytes) (perm : Z).

(** The file system and the system calls made so far, latest last. *)
Record FS := mkFS { files : gmap string File; calls : list Event }.

(** The file system [w] after the calls [es], its files unchanged. *)
Definition logged (w : FS) (es : list Event) : FS :=
  mkFS (files w) (calls w ++ es).

Definition log (e : Event) : M FS unit := λ w, (Ok tt, logged w [e]).

(** The owner's read and write bits, 0400 and 0200, decide whether the
    file can be opened for reading and for writing. *)
Definition readable (f : File) : bool := Z.testbit (mode f) 8.
Definition writable (f : File) : bool := Z.testbit (mode f) 7.

Definition lookup_file (path : string) : M FS (option File) :=
  λ w, (Ok (files w !! path), w).

Definition store_file (path : string) (f : File) : M FS unit :=
  λ w, (Ok tt, mkFS (<[path := f]> (files w)) (calls w)).

(** [os.Stat], of which the callers only use [Mode()]. *)
Definition Stat (path : string) : M FS Z :=
  log (EvStat path);;
  o ← lookup_file path;
  match o with
  | Some f => mret (mode f)
  | None => fail (PathError "stat" path ENOENT)
  end.

Definition ReadFile (path : string) : M FS bytes :=
  log (EvReadFile path);;
  o ← lookup_file path;
  match o with
  | Some f =>
      if readable f then mret (content f)
      else fail (PathError "open" path EACCES)
  | None => fail (PathError "open" path ENOENT)
  end.

(** [ioutil.WriteFile]: a missing file is created with permissions
    [perm]; an existing one is truncated and written without changing
    its permissions. The write is taken as atomic. *)
Definition WriteFile (path : string) (data : bytes) (perm : Z) : M FS unit :=
  log (EvWriteFile path data perm);;
  o ← lookup_file path;
  match o with
  | Some f =>
      if writable f then store_file path (mkFile data (mode f))
      else fail (PathError "open" path EACCES)
  | None => store_file path (mkFile data perm)
  end.

End os.

(** ** Package [regexp], as far as the callers see it *)
Module regexp.

(** A regular expression engine: [Compile] either rejects a pattern with
    the code and the offending expression of a [syntax.Error], or gives a
    matcher; [ReplaceAllString re src repl] substitutes every match of
    [re] in [src] by the expansion of the template [repl]. *)
Class Engine := {
  Regexp : Type;
  Compile : bytes → (string * bytes) + Regexp;
  ReplaceAllString : Regexp → bytes → bytes → bytes
}.

End regexp.

(** ** Package [testutils]: the text patching helpers *)
Module testutils.

Definition inspect {A} (a : A) : {b | a = b} := exist _ a eq_refl.

(** [ReplaceInFile] replaces all instances of [old] with [new] in the
    file at [path]. *)
Definition ReplaceInFile (path : string) (old new : bytes) : M os.FS unit :=
  info ← os.Stat path;
  b ← os.ReadFile path;
  if negb (strings.Contains b old)
  then fail (errorString (str "unable to find the content to be replaced"))
  else
    let s := strings.Replace b old new (-1) in
    os.WriteFile path s info.

(** [ReplaceRegexInFile] finds all strings that match [match_] and
    replaces them with [replace] in the file at [path]. *)
Definition ReplaceRegexInFile {engine : regexp.Engine}
    (path : string) (match_ replace : bytes) : M os.FS unit :=
  match regexp.Compile match_ with
  | inl (code, expr) => fail (SyntaxError code expr)
  | inr matcher =>
      info ← os.Stat path;
      b ← os.ReadFile path;
      let s := regexp.ReplaceAllString matcher b replace in
      if bool_decide (s = b)
      then fail (errorString (str "unable to find the content to be replaced"))
      else os.WriteFile path s info
  end.

(** The [for] loop of [UncommentCode]: write the current line without
    its prefix, stop when the scanner has no further line, write a line
    feed otherwise. *)
Equations uncomment_loop (scanner : bufio.Scanner) (prefix out : bytes) : bytes
  by wf (length (bufio.input scanner)) lt :=
uncomment_loop scanner prefix out with inspect (bufio.Scan scanner) := {
  | exist _ (true, scanner') _ =>
      uncomment_loop scanner' prefix
        (out ++ strings.TrimPrefix (bufio.Text scanner) prefix ++ [LF]);
  | exist _ (false, _) _ =>
      out ++ strings.TrimPrefix (bufio.Text scanner) prefix
}.
Next Obligation.
  assert (∀ data l r, bufio.cut_line data = (l, r) →
            (length (default [] r) ≤ length data)%nat ∧
            (is_Some r → (length (default [] r) < length data)%nat)) as Hcut.
  { induction data as [|c d IH]; intros l r; simpl.
    - intros [= <- <-]. simpl. split; [lia|]. intros [? [=]].
    - destruct (decide (c = LF)).
      + intros [= <- <-]. simpl. split; lia.
      + destruct (bufio.cut_line d) as [l' r'] eqn:E. intros [= <- <-].
        destruct (IH _ _ eq_refl) as [H1 H2]. split; [lia|].
        intros Hs. specialize (H2 Hs). lia. }
  match goal with
  | H : bufio.Scan ?s = (true, ?s') |- _ => revert H; unfold bufio.Scan
  end.
  destruct (bufio.stopped scanner); [discriminate|].
  destruct (bufio.input scanner) as [|c d] eqn:Ei; [discriminate|].
  destruct (bufio.cut_line (c :: d)) as [l r] eqn:E.
  destruct (bufio.MaxScanTokenSize <=? len l); [discriminate|].
  intros [= <-]. simpl. destruct (Hcut _ _ _ E) as [H1 H2].
  destruct r as [r|]; simpl in *; [apply H2; eauto|lia].
Qed.

(** [UncommentCode] searches for [target] in the file and removes the
    comment prefix of the target content. *)
Definition UncommentCode (filename : string) (target prefix : bytes) : M os.FS unit :=
  content ← os.ReadFile filename;
  let idx := strings.Index content target in
  if idx <? 0
  then fail (errorString
               (str "unable to find the code " ++ target ++ str " to be uncomment"))
  else
    let out := slice_to content idx in
    let '(ok, scanner) := bufio.Scan (bufio.NewScanner target) in
    if negb ok then mret tt
    else
      let out := uncomment_loop scanner prefix out in
      let out := out ++ slice_from content (idx + len target) in
      os.WriteFile filename out 420.

(** *** The cluster behind [kubectl], [kind] and the [operator-sdk] binary *)

(** The commands the helpers issue, through [exec.Command] and [Run] or
    through kubebuilder's [Kubectl] and Prometheus helpers. *)
Inductive Cmd :=
| Run (argv : list string)
| KubectlCommand (args : list string)
| KubectlGet (inNamespace : bool) (args : list string)
| InstallPrometheusOperManager
| UninstallPrometheusOperManager.

(** A cluster answers every command with its output or with an error;
    [history] lists the commands run so far, latest last, and [warnings]
    what was printed to [GinkgoWriter]. *)
Record Cluster := mkCluster {
  respond : Cmd → result bytes;
  history : list Cmd;
  warnings : list error
}.

Definition exec (c : Cmd) : M Cluster bytes :=
  λ k, (respond k c, mkCluster (respond k) (history k ++ [c]) (warnings k)).

(** Print a warning when [m] returns an error, and go on. *)
Definition warn_on_error {A} (m : M Cluster A) : M Cluster unit :=
  λ k, match m k with
       | (Ok _, k') => (Ok tt, k')
       | (Err e, k') =>
           (Ok tt, mkCluster (respond k') (history k') (warnings k' ++ [e]))
       end.

(** kubebuilder's [TestContext], with the fields used here. *)
Record kbTestContext := mkKb {
  Dir : string;
  BinaryName : string;
  ImageName : string
}.

(** [TestContext] wraps kubebuilder's e2e [TestContext]. *)
Record TestContext := mkTestContext {
  kb : kbTestContext;
  BundleImageName : string;
  ProjectName : string;
  isPrometheusManagedBySuite : bool;
  isOLMManagedBySuite : bool
}.

Definition set_isPrometheusManagedBySuite (b : bool) (tc : TestContext) : TestContext :=
  mkTestContext (kb tc) (BundleImageName tc) (ProjectName tc) b
    (isOLMManagedBySuite tc).

Definition set_isOLMManagedBySuite (b : bool) (tc : TestContext) : TestContext :=
  mkTestContext (kb tc) (BundleImageName tc) (ProjectName tc)
    (isPrometheusManagedBySuite tc) b.

Definition makeImageName (projectName : string) : string :=
  "quay.io/example/" +:+ projectName +:+ ":v0.0.1".

Definition makeBundleImageName (projectName : string) : string :=
  "quay.io/example/" +:+ projectName +:+ "-bundle:v0.0.1".

Section context.

(** Library functions and the constant of the package that the helpers
    use: [filepath.Join], [filepath.Base], [strings.ToLower],
    kubebuilder's constructor and [OlmVersionForTestSuite]. *)
Variable filepath_Join : string → string → string.
Variable filepath_Base : string → string.
Variable strings_ToLower : string → string.
Variable kbtestutils_NewTestContext : string → list string → result kbTestContext.
Variable OlmVersionForTestSuite : string.
Variable filepath_Abs : string → result string.

(** [NewTestContext] returns a [TestContext] containing a new kubebuilder
    [TestContext]. *)
Definition NewTestContext (binaryName : string) (env : list string) : result TestContext :=
  match kbtestutils_NewTestContext binaryName env with
  | Err e => Err e
  | Ok k =>
      let ProjectName := strings_ToLower (filepath_Base (Dir k)) in
      Ok (mkTestContext
            (mkKb (Dir k) (BinaryName k) (makeImageName ProjectName))
            (makeBundleImageName ProjectName)
            ProjectName
            true
            true)
  end.

(** [NewPartialTestContext] returns a [TestContext] containing a partial
    kubebuilder [TestContext], made without its constructor; the two
    flags keep the zero value of [bool]. *)
Definition NewPartialTestContext (binaryName dir : string) (env : list string) : result TestContext :=
  match filepath_Abs dir with
  | Err e => Err e
  | Ok ccDir =>
      let projectName := strings_ToLower (filepath_Base dir) in
      Ok (mkTestContext
            (mkKb ccDir binaryName (makeImageName projectName))
            (makeBundleImageName projectName)
            projectName
            false
            false)
  end.

(** [InstallOLMVersion] runs [operator-sdk olm install] for a version. *)
Definition InstallOLMVersion (tc : TestContext) (version : string) : M Cluster unit :=
  exec (Run [BinaryName (kb tc); "olm"; "install"; "--version"; version;
             "--timeout"; "4m"]%string);;
  mret tt.

(** [UninstallOLM] runs [operator-sdk olm uninstall] and logs any error. *)
Definition UninstallOLM (tc : TestContext) : M Cluster unit :=
  warn_on_error (exec (Run [BinaryName (kb tc); "olm"; "uninstall"]%string)).

(** [InstallPrerequisites] installs OLM and Prometheus when they are not
    present on the cluster. The receiver is a value: the assignments to
    the two flags change the method's own copy of [tc]. A failed [Expect]
    ends the run with the error; [Eventually] polls until the command
    succeeds, and the cluster's answer stands for the outcome of the
    polling. The [By] annotations only print and are left out. *)
Definition InstallPrerequisites (tc : TestContext) : M Cluster unit :=
  output ← exec (KubectlCommand ["api-resources"%string]);
  let tc :=
    if strings.Contains output (str "servicemonitors")
    then set_isPrometheusManagedBySuite false tc else tc in
  let tc :=
    if strings.Contains output (str "clusterserviceversions")
    then set_isOLMManagedBySuite false tc else tc in
  (if isPrometheusManagedBySuite tc
   then exec InstallPrometheusOperManager;;
        exec (KubectlGet false ["Service"; "prometheus-operator"]%string);;
        mret tt
   else mret tt);;
  (if isOLMManagedBySuite tc
   then InstallOLMVersion tc OlmVersionForTestSuite
   else mret tt).


(** [UninstallPrerequisites] uninstalls all prerequisites installed via
    [InstallPrerequisites]. *)
Definition UninstallPrerequisites (tc : TestContext) : M Cluster unit :=
  (if isPrometheusManagedBySuite tc
   then warn_on_error (exec UninstallPrometheusOperManager)
   else mret tt);;
  (if isOLMManagedBySuite tc
   then UninstallOLM tc
   else mret tt).

(** The line [AllowProjectBeMultiGroup] prepends. *)
Definition multiGroup : bytes := str "multigroup: true" ++ [LF].

(** [AllowProjectBeMultiGroup] updates the PROJECT file to allow APIs
    with different groups. *)
Definition AllowProjectBeMultiGroup (tc : TestContext) : M os.FS unit :=
  projectBytes ← os.ReadFile (filepath_Join (Dir (kb tc)) "PROJECT");
  let projectBytes := multiGroup ++ projectBytes in
  os.WriteFile (filepath_Join (Dir (kb tc)) "PROJECT") projectBytes 420.

(** A test run: set up the prerequisites, tear them down at the end, on
    the same [tc] of the suite. *)
Definition prerequisites_run (tc : TestContext) : M Cluster unit :=
  InstallPrerequisites tc;;
  UninstallPrerequisites tc.

End context.

End testutils.

(** * Vocabulary of the statements *)

(** [t] occurs in [s] as a contiguous block. *)
Definition occurs (t s : bytes) : Prop := ∃ a b, s = a ++ t ++ b.

(** Every instance of [old] replaced by [new], in words: read [s] from
    the left; where [old] starts, outside of an instance already
    replaced, put [new] and skip the bytes of that instance; copy any
    other byte. [skip] counts the bytes of the current instance still to
    be skipped. *)
Fixpoint replace_all (skip : nat) (s old new : bytes) : bytes :=
  match s with
  | [] => []
  | c :: s' =>
      match skip with
      | S k => replace_all k s' old new
      | O =>
          if strings.HasPrefix s old
          then new ++ replace_all (length old - 1) s' old new
          else c :: replace_all 0 s' old new
      end
  end.

(** The lines of a block, in words: cut at every line feed; a block that
    ends with a line feed has no further, empty, line. *)
Fixpoint raw_lines (s : bytes) : list bytes :=
  match s with
  | [] => []
  | c :: s' =>
      if decide (c = LF) then [] :: raw_lines s'
      else match raw_lines s' with
           | [] => [[c]]
           | l :: ls => (c :: l) :: ls
           end
  end.

(** Lines joined again, one line feed between two lines. *)
Fixpoint join_lines (ls : list bytes) : bytes :=
  match ls with
  | [] => []
  | [l] => l
  | l :: ls' => l ++ [LF] ++ join_lines ls'
  end.

(** The block with [prefix] removed from the start of each line (and a
    carriage return from its end, as the scanner does). *)
Definition uncommented (target prefix : bytes) : bytes :=
  join_lines
    (map (λ l, strings.TrimPrefix (bufio.dropCR l) prefix) (raw_lines target)).

(** Every line of the block fits the scanner's buffer. *)
Definition fits_scanner (target : bytes) : Prop :=
  ∀ l, l ∈ raw_lines target → len l < bufio.MaxScanTokenSize.

(** What [UncommentCode] writes in place of the block found. *)
Definition uncomment_block (target prefix : bytes) : bytes :=
  let '(ok, scanner) := bufio.Scan (bufio.NewScanner target) in
  if ok then testutils.uncomment_loop scanner prefix [] else target.

(** The errors of the helpers themselves. *)
Definition not_found : error :=
  errorString (str "unable to find the content to be replaced").

Definition uncomment_error (target : bytes) : error :=
  errorString (str "unable to find the code " ++ target ++ str " to be uncomment").

(** ** Calls of the four helpers *)

(** A call of one of the four helpers. *)
Inductive Mutation :=
| MReplaceInFile (path : string) (old new : bytes)
| MReplaceRegexInFile (path : string) (match_ replace : bytes)
| MUncommentCode (filename : string) (target prefix : bytes)
| MAllowProjectBeMultiGroup (tc : testutils.TestContext).

Section calls.

Import os testutils.

Context {engine : regexp.Engine}.
Variable filepath_Join : string → string → string.

Definition run (op : Mutation) : M FS unit :=
  match op with
  | MReplaceInFile path old new => ReplaceInFile path old new
  | MReplaceRegexInFile path match_ replace => ReplaceRegexInFile path match_ replace
  | MUncommentCode filename target prefix => UncommentCode filename target prefix
  | MAllowProjectBeMultiGroup tc => AllowProjectBeMultiGroup filepath_Join tc
  end.

(** The file a call is about. *)
Definition path_of (op : Mutation) : string :=
  match op with
  | MReplaceInFile path _ _ => path
  | MReplaceRegexInFile path _ _ => path
  | MUncommentCode filename _ _ => filename
  | MAllowProjectBeMultiGroup tc => filepath_Join (Dir (kb tc)) "PROJECT"
  end.





End calls.

(** The file a call to the file system is about, and whether the call
    writes. *)
Definition event_path (e : os.Event) : string :=
  match e with
  | os.EvStat path => path
  | os.EvReadFile path => path
  | os.EvWriteFile path _ _ => path
  end.

Definition is_write (e : os.Event) : bool :=
  match e with
  | os.EvWriteFile _ _ _ => true
  | _ => false
  end.

(** ** What two claims say, where the code does otherwise *)

Section as_stated.

Import os testutils.

(** What claim C2 says of a successful replacement when [new] does not
    contain [old]: no instance of [old] is left in the file. *)
Definition none_left (path : string) (old new : bytes) (w : FS) : Prop :=
  ∀ f f',
    files w !! path = Some f → occurs old (content f) → ¬ occurs old new →
    files (ReplaceInFile path old new w).2 !! path = Some f' →
    ¬ occurs old (content f').


End as_stated.

(** ** Concrete files, a concrete cluster *)

Section data.

Import os testutils.

(** A small engine to run [ReplaceRegexInFile] with: it takes the
    patterns without metacharacter, which match themselves, and rejects
    the others; templates are taken without [$]. *)
Definition metacharacters : bytes := str "\.+*?()|[]{}^$".

Definition literal_engine : regexp.Engine := {|
  regexp.Regexp := bytes;
  regexp.Compile p :=
    if forallb (λ c, bool_decide (c ∉ metacharacters)) p then inr p
    else inl ("unsupported or malformed pattern"%string, p);
  regexp.ReplaceAllString re src repl := strings.Replace src re repl (-1)
|}.

(** Paths joined with a slash, enough for clean relative paths. *)
Definition join_slash (dir name : string) : string := dir +:+ "/" +:+ name.

(** A file system with one file, and no call made yet. *)
Definition one_file (path : string) (c : bytes) (mode : Z) : os.FS :=
  os.mkFS {[ path := os.mkFile c mode ]} [].

Definition commented : bytes :=
  str "x" ++ [LF] ++ str "// line1" ++ [LF] ++ str "// line2" ++ [LF] ++
  str "y" ++ [LF].

Definition block : bytes := str "// line1" ++ [LF] ++ str "// line2" ++ [LF].

Definition project : TestContext :=
  mkTestContext (mkKb "e2e-abcd" "operator-sdk" "quay.io/example/e2e-abcd:v0.0.1")
    "quay.io/example/e2e-abcd-bundle:v0.0.1" "e2e-abcd" true true.

(** A cluster on which every command succeeds and [kubectl
    api-resources] lists the kinds of Prometheus and of OLM. *)
Definition provisioned : Cluster :=
  mkCluster
    (λ c, match c with
          | KubectlCommand _ =>
              Ok (str "servicemonitors" ++ [LF] ++ str "clusterserviceversions" ++ [LF])
          | _ => Ok []
          end)
    [] [].

End data.

(** ** Runs of commands, repeated calls, commented blocks *)

Section runs.

Import testutils.


(** The commands [cs] run in order up to the first that fails: the
    commands run, and the error of the last if it failed. *)
Fixpoint until_failure (k : Cluster) (cs : list Cmd) : list Cmd * result unit :=
  match cs with
  | [] => ([], Ok tt)
  | c :: cs' =>
      match respond k c with
      | Err e => ([c], Err e)
      | Ok _ => let '(done, r) := until_failure k cs' in (c :: done, r)
      end
  end.

(** The errors with which the cluster answers the commands [cs]. *)
Definition failures (k : Cluster) (cs : list Cmd) : list error :=
  omap (λ c, match respond k c with Err e => Some e | Ok _ => None end) cs.


(** What is to uninstall for a context. *)
Definition uninstall_commands (tc : TestContext) : list Cmd :=
  (if isPrometheusManagedBySuite tc then [UninstallPrometheusOperManager] else []) ++
  (if isOLMManagedBySuite tc
   then [Run [BinaryName (kb tc); "olm"; "uninstall"]%string] else []).

End runs.

(** [n] calls in a row, as long as they succeed. *)
Fixpoint times {S} (n : nat) (m : M S unit) : M S unit :=
  match n with
  | O => mret tt
  | S n' => m;; times n' m
  end.

(** The lines [ls] commented out with [prefix], as a block. *)
Definition comment_out (prefix : bytes) (ls : list bytes) : bytes :=
  join_lines (map (λ l, prefix ++ l) ls).

(** * [bufio.Scanner] makes progress *)

Lemma cut_line_length data l r :
  bufio.cut_line data = (l, r) →
  (length (default [] r) + length l ≤ length data)%nat ∧
  (is_Some r → (length (default [] r) < length data)%nat).
Proof.
  revert l r. induction data as [|c d IH]; intros l r; simpl.
  - intros [= <- <-]. simpl. split; [lia|]. intros [? [=]].
  - destruct (decide (c = LF)).
    + intros [= <- <-]. simpl. split; [lia|]. intros _. lia.
    + destruct (bufio.cut_line d) as [l' r'] eqn:E. intros [= <- <-].
      destruct (IH _ _ eq_refl) as [H1 H2]. simpl. split; [lia|].
      intros Hs. specialize (H2 Hs). lia.
Qed.

Lemma Scan_decreases s s' :
  bufio.Scan s = (true, s') →
  (length (bufio.input s') < length (bufio.input s))%nat.
Proof.
  unfold bufio.Scan. destruct (bufio.stopped s); [discriminate|].
  destruct (bufio.input s) as [|c d] eqn:Ei; [discriminate|].
  destruct (bufio.cut_line (c :: d)) as [l r] eqn:E.
  destruct (bufio.MaxScanTokenSize <=? len l); [discriminate|].
  intros [= <-]. simpl.
  pose proof (cut_line_length _ _ _ E) as [H1 H2].
  destruct r as [r|]; simpl in *.
  - apply H2. eauto.
  - lia.
Qed.

(** * Facts about the string functions *)
Section strings_facts.

Import strings.

Lemma len_nonneg s : 0 <= len s.
Proof. unfold len. lia. Qed.

Lemma len_app s t : len (s ++ t) = len s + len t.
Proof. unfold len. rewrite length_app. lia. Qed.

Lemma slice_to_len s : ∀ t, slice_to (s ++ t) (len s) = s.
Proof. intros t. unfold slice_to, len. rewrite Nat2Z.id. apply take_app_length. Qed.

Lemma slice_from_len s : ∀ t, slice_from (s ++ t) (len s) = t.
Proof. intros t. unfold slice_from, len. rewrite Nat2Z.id. apply drop_app_length. Qed.

Lemma HasPrefix_spec s p : HasPrefix s p = true ↔ p `prefix_of` s.
Proof.
  unfold HasPrefix, slice_to, len. rewrite Nat2Z.id, andb_true_iff.
  rewrite !bool_decide_eq_true. split.
  - intros [_ H]. exists (drop (length p) s).
    rewrite <- H at 1. by rewrite take_drop.
  - intros [k ->]. rewrite length_app. split; [lia|].
    apply take_app_length.
Qed.

Lemma HasPrefix_false s p : HasPrefix s p = false ↔ ¬ p `prefix_of` s.
Proof. rewrite <- HasPrefix_spec. by destruct (HasPrefix s p). Qed.

Lemma TrimPrefix_app p s : TrimPrefix (p ++ s) p = s.
Proof.
  unfold TrimPrefix.
  assert (HasPrefix (p ++ s) p = true) as -> by (apply HasPrefix_spec; by exists s).
  apply slice_from_len.
Qed.


Lemma index_of_Some s t i :
  index_of s t = Some i →
  (i ≤ length s)%nat ∧ t `prefix_of` drop i s ∧
  ∀ j, (j < i)%nat → ¬ t `prefix_of` drop j s.
Proof.
  revert i. induction s as [|c s IH]; intros i; simpl.
  - destruct (HasPrefix [] t) eqn:E; [|done].
    intros [= <-]. apply HasPrefix_spec in E. split; [done|]. split; [done|]. lia.
  - destruct (HasPrefix (c :: s) t) eqn:E.
    + intros [= <-]. apply HasPrefix_spec in E. split; [lia|]. split; [done|]. lia.
    + destruct (index_of s t) as [i'|] eqn:Ei; [|done].
      intros [= <-]. destruct (IH i' eq_refl) as (Hle & Hp & Hmin).
      split; [lia|]. split; [done|].
      intros [|j] Hj; simpl.
      * by apply HasPrefix_false.
      * apply Hmin. lia.
Qed.

Lemma index_of_None s t : index_of s t = None → ∀ j, ¬ t `prefix_of` drop j s.
Proof.
  induction s as [|c s IH]; simpl.
  - destruct (HasPrefix [] t) eqn:E; [done|]. intros _ j.
    rewrite drop_nil. by apply HasPrefix_false.
  - destruct (HasPrefix (c :: s) t) eqn:E; [done|].
    destruct (index_of s t) eqn:Ei; [done|]. intros _ [|j]; simpl.
    + by apply HasPrefix_false.
    + by apply IH.
Qed.

Lemma occurs_prefix_drop t s : occurs t s ↔ ∃ j, t `prefix_of` drop j s.
Proof.
  split.
  - intros (a & b & ->). exists (length a). rewrite drop_app_length. by exists b.
  - intros (j & b & Hb). exists (take j s), b.
    rewrite <- Hb. by rewrite take_drop.
Qed.

Lemma index_of_None_iff s t : index_of s t = None ↔ ¬ occurs t s.
Proof.
  rewrite occurs_prefix_drop. split.
  - intros H [j Hj]. by eapply index_of_None.
  - intros H. destruct (index_of s t) as [i|] eqn:E; [|done].
    destruct H. exists i. by apply index_of_Some in E as (_ & ? & _).
Qed.

Lemma Index_range s t : -1 <= Index s t <= len s.
Proof.
  unfold Index, len. destruct (index_of s t) as [i|] eqn:E; [|lia].
  apply index_of_Some in E as (? & _). lia.
Qed.

Lemma Index_neg s t : Index s t < 0 ↔ ¬ occurs t s.
Proof.
  rewrite <- index_of_None_iff. unfold Index.
  destruct (index_of s t); split; (done || lia).
Qed.

Lemma Contains_spec s t : Contains s t = true ↔ occurs t s.
Proof.
  unfold Contains. rewrite Z.leb_le. pose proof (Index_neg s t) as H.
  split.
  - intros Hi. destruct (index_of s t) as [i|] eqn:E.
    + apply occurs_prefix_drop. exists i.
      by apply index_of_Some in E as (_ & ? & _).
    + unfold Index in Hi. rewrite E in Hi. lia.
  - intros Ho. destruct (Z.lt_ge_cases (Index s t) 0); [|done].
    by apply H in Ho.
Qed.

Lemma Contains_false s t : Contains s t = false ↔ ¬ occurs t s.
Proof. rewrite <- Contains_spec. by destruct (Contains s t). Qed.

(** At the index found, [s] splits around its leftmost instance of [t]. *)
Lemma Index_split s t :
  0 <= Index s t →
  s = slice_to s (Index s t) ++ t ++ slice_from s (Index s t + len t) ∧
  ∀ j, (j < Z.to_nat (Index s t))%nat → ¬ t `prefix_of` drop j s.
Proof.
  unfold Index, slice_to, slice_from, len.
  destruct (index_of s t) as [i|] eqn:E; [|lia]. intros _.
  apply index_of_Some in E as (Hle & [b Hb] & Hmin).
  rewrite !Nat2Z.id. rewrite <- Nat2Z.inj_add, Nat2Z.id. split; [|done].
  rewrite <- drop_drop, Hb, drop_app_length.
  rewrite <- Hb. by rewrite take_drop.
Qed.

End strings_facts.

(** * Replacing every instance, as a scan from the left *)

Section replace_facts.

Import strings.

Variables old new : bytes.
Hypothesis old_nonempty : old ≠ [].

Lemma replace_all_skip k s :
  replace_all k s old new = replace_all 0 (drop k s) old new.
Proof.
  revert k. induction s as [|c s IH]; intros [|k]; simpl; try done.
Qed.

Lemma replace_all_absent s :
  index_of s old = None → replace_all 0 s old new = s.
Proof.
  induction s as [|c s IH]; simpl; [done|].
  destruct (HasPrefix (c :: s) old); [done|].
  destruct (index_of s old); [done|]. intros _. by rewrite IH.
Qed.

Lemma replace_all_found s i :
  index_of s old = Some i →
  replace_all 0 s old new =
  take i s ++ new ++ replace_all 0 (drop (i + length old) s) old new.
Proof.
  revert i. induction s as [|c s IH]; intros i; simpl.
  - destruct (HasPrefix [] old) eqn:E; [|done].
    apply HasPrefix_spec in E. apply prefix_nil_inv in E. done.
  - destruct (HasPrefix (c :: s) old) eqn:E.
    + intros [= <-]. simpl. f_equal. rewrite replace_all_skip.
      destruct old as [|o old']; [done|]. simpl. by rewrite Nat.sub_0_r.
    + destruct (index_of s old) as [i'|]; [|done]. intros [= <-].
      simpl. f_equal. by apply IH.
Qed.

(** The counting loop and the replacement loop of [strings.Replace]
    agree with the scan: the loop runs once per instance found. *)
Lemma loops_replace_all fuel : ∀ rest n,
  (length rest < fuel)%nat →
  ∃ k : nat,
    count_loop fuel n rest old = n + Z.of_nat k ∧
    ∀ first, replace_loop k first rest old new = replace_all 0 rest old new.
Proof.
  assert ((len old =? 0) = false) as Hlen.
  { apply Z.eqb_neq. unfold len. destruct old; [done|]. simpl. lia. }
  induction fuel as [|fuel IH]; intros rest n Hfuel; [lia|].
  simpl. unfold Index. destruct (index_of rest old) as [i|] eqn:E.
  - assert ((Z.of_nat i =? -1) = false) as -> by (apply Z.eqb_neq; lia).
    pose proof (index_of_Some _ _ _ E) as (Hi & [b Hb] & _).
    assert (length old ≠ 0%nat) by (by destruct old).
    assert (length (drop i rest) = length old + length b)%nat as Hl
      by (by rewrite Hb, length_app).
    rewrite length_drop in Hl.
    destruct (IH (slice_from rest (Z.of_nat i + len old)) (n + 1)) as (k & Hc & Hr).
    { unfold slice_from, len. rewrite length_drop. lia. }
    exists (S k). split; [rewrite Hc; lia|]. intros first. simpl.
    rewrite Hlen. unfold Index. rewrite E, Hr.
    rewrite (replace_all_found _ _ E). unfold slice_to, slice_from, len.
    by rewrite <- Nat2Z.inj_add, !Nat2Z.id.
  - exists 0%nat. simpl. split; [lia|]. intros _. by rewrite replace_all_absent.
Qed.

Lemma Replace_replace_all s :
  old ≠ new → Replace s old new (-1) = replace_all 0 s old new.
Proof.
  intros Hne. unfold Replace, Count.
  rewrite bool_decide_eq_false_2 by done.
  assert ((len old =? 0) = false) as ->.
  { apply Z.eqb_neq. unfold len. destruct old; [done|]. simpl. lia. }
  destruct (loops_replace_all (S (length s)) s 0) as (k & Hc & Hr); [lia|].
  rewrite Hc. change (-1 =? 0) with false. change (-1 <? 0) with true.
  cbn [orb]. destruct k as [|k].
  - simpl. by rewrite <- (Hr true).
  - assert ((0 + Z.of_nat (S k) =? 0) = false) as -> by (apply Z.eqb_neq; lia).
    by rewrite Z.add_0_l, Nat2Z.id.
Qed.

(** When no byte of a non-empty [new] occurs in [old], what the scan
    produces starts with bytes of [old] only where [s] did. *)
Lemma prefix_of_replace_all u s :
  new ≠ [] → (∀ c, c ∈ new → c ∉ old) →
  (∀ c, c ∈ u → c ∈ old) →
  u `prefix_of` replace_all 0 s old new → u `prefix_of` s.
Proof.
  intros Hnew Hdisj. revert u. induction s as [|c s IH]; intros u Hu; simpl.
  - done.
  - destruct (HasPrefix (c :: s) old).
    + destruct u as [|x u]; [intros _; apply prefix_nil|].
      destruct new as [|n0 new']; [done|]. intros [k Hk]. simplify_eq/=.
      destruct (Hdisj x); [by left|]. apply Hu. by left.
    + destruct u as [|x u]; [intros _; apply prefix_nil|].
      intros [k Hk]. simplify_eq/=.
      apply prefix_cons, IH; [|by exists k].
      intros c' Hc'. apply Hu. by right.
Qed.

Lemma replace_all_none_left k s :
  new ≠ [] → (∀ c, c ∈ new → c ∉ old) →
  ∀ j, ¬ old `prefix_of` drop j (replace_all k s old new).
Proof.
  intros Hnew Hdisj. revert k. induction s as [|c s IH]; intros k j; simpl.
  - rewrite drop_nil. intros H. by apply prefix_nil_inv in H.
  - destruct k as [|k]; [|apply IH].
    destruct (HasPrefix (c :: s) old) eqn:E.
    + destruct (decide (j < length new)%nat) as [Hj|Hj].
      * rewrite drop_app_le by lia.
        destruct (drop j new) as [|x r] eqn:Ed.
        { apply (f_equal length) in Ed. rewrite length_drop in Ed. simpl in Ed. lia. }
        destruct old as [|o old'] eqn:Eo; [done|]. intros [b Hb]. simplify_eq/=.
        destruct (Hdisj o); [|by left].
        rewrite <- (take_drop j new), Ed. apply elem_of_app. right. by left.
      * rewrite drop_app_ge by lia. apply IH.
    + destruct j as [|j]; simpl; [|apply IH].
      intros H. apply HasPrefix_false in E. apply E.
      apply (prefix_of_replace_all old (c :: s)); try done.
      simpl. apply HasPrefix_false in E. by rewrite E.
Qed.

End replace_facts.

(** Replacing [old] by itself changes nothing. *)
Lemma replace_all_same old s : old ≠ [] → replace_all 0 s old old = s.
Proof.
  intros Hold. remember (S (length s)) as n eqn:Hn.
  assert (length s < n)%nat as Hlt by lia. clear Hn.
  revert s Hlt. induction n as [|n IH]; intros s Hlt; [lia|].
  destruct (strings.index_of s old) as [i|] eqn:E.
  - rewrite (replace_all_found old old Hold _ _ E).
    pose proof (index_of_Some _ _ _ E) as (Hi & [b Hb] & _).
    assert (length old ≠ 0%nat) by (by destruct old).
    assert (length (drop i s) = length old + length b)%nat as Hl
      by (by rewrite Hb, length_app).
    rewrite length_drop in Hl.
    rewrite IH by (rewrite length_drop; lia).
    rewrite <- drop_drop, Hb, drop_app_length, <- Hb. apply take_drop.
  - by apply replace_all_absent.
Qed.

(** * Uncommenting a block, line by line *)

Section uncomment_facts.

Import bufio testutils.

Lemma raw_lines_cut_line s l r :
  s ≠ [] → cut_line s = (l, r) → raw_lines s = l :: raw_lines (default [] r).
Proof.
  revert l r. induction s as [|c s IH]; intros l r Hs; [done|]. simpl.
  destruct (decide (c = LF)); [by intros [= <- <-]|].
  destruct (cut_line s) as [l' r'] eqn:E. intros [= <- <-].
  destruct s as [|c' s'].
  - simpl in E. by injection E as <- <-.
  - by rewrite (IH l' r').
Qed.

Lemma uncomment_loop_unfold scanner prefix out :
  uncomment_loop scanner prefix out =
  match Scan scanner with
  | (true, scanner') =>
      uncomment_loop scanner' prefix
        (out ++ strings.TrimPrefix (Text scanner) prefix ++ [LF])
  | (false, _) => out ++ strings.TrimPrefix (Text scanner) prefix
  end.
Proof.
  rewrite uncomment_loop_equation_1. unfold inspect.
  enough (∀ x (e : Scan scanner = x),
    uncomment_loop_unfold_clause_1 scanner (x ↾ e) prefix out =
    match x with
    | (true, scanner') =>
        uncomment_loop scanner' prefix
          (out ++ strings.TrimPrefix (Text scanner) prefix ++ [LF])
    | (false, _) => out ++ strings.TrimPrefix (Text scanner) prefix
    end) as H by apply H.
  by intros [[] sc] e.
Qed.

Lemma join_lines_cons l l' ls :
  join_lines (l :: l' :: ls) = l ++ [LF] ++ join_lines (l' :: ls).
Proof. done. Qed.

(** The loop only appends to what was written before. *)
Lemma uncomment_loop_out scanner prefix out :
  uncomment_loop scanner prefix out = out ++ uncomment_loop scanner prefix [].
Proof.
  remember (S (length (input scanner))) as n eqn:Hn.
  assert (length (input scanner) < n)%nat as Hlt by lia. clear Hn.
  revert scanner out Hlt. induction n as [|n IH]; intros sc out Hlt; [lia|].
  rewrite (uncomment_loop_unfold sc prefix out), (uncomment_loop_unfold sc prefix []).
  destruct (Scan sc) as [[] sc'] eqn:E; [|done].
  apply Scan_decreases in E.
  rewrite (IH sc' (out ++ _)), (IH sc' ([] ++ _)) by lia.
  simpl. by rewrite <- !app_assoc.
Qed.

(** On lines that fit the buffer, the loop writes the remaining lines
    without their prefix, joined by line feeds. *)
Lemma uncomment_loop_lines scanner prefix :
  stopped scanner = false →
  fits_scanner (input scanner) →
  uncomment_loop scanner prefix [] =
  join_lines
    (strings.TrimPrefix (Text scanner) prefix ::
     map (λ l, strings.TrimPrefix (dropCR l) prefix) (raw_lines (input scanner))).
Proof.
  remember (S (length (input scanner))) as n eqn:Hn.
  assert (length (input scanner) < n)%nat as Hlt by lia. clear Hn.
  revert scanner Hlt. induction n as [|n IH]; intros sc Hlt Hst Hfit; [lia|].
  rewrite uncomment_loop_unfold.
  destruct (Scan sc) as [ok sc'] eqn:E.
  pose proof E as E'. unfold Scan in E'. rewrite Hst in E'.
  destruct (input sc) as [|c d] eqn:Ei.
  - injection E' as <- <-. by simpl.
  - destruct (cut_line (c :: d)) as [l r] eqn:Ec.
    pose proof (raw_lines_cut_line (c :: d) l r ltac:(done) Ec) as Hl.
    assert ((MaxScanTokenSize <=? len l) = false) as Hsz.
    { apply Z.leb_gt, Hfit. rewrite Hl. by left. }
    rewrite Hsz in E'. injection E' as <- <-.
    rewrite Hl, uncomment_loop_out, IH; cbn [input Text token stopped].
    + cbn [map]. rewrite join_lines_cons, app_nil_l. by rewrite <- app_assoc.
    + apply Scan_decreases in E. rewrite Ei in E. simpl in E, Hlt. lia.
    + done.
    + intros l' Hl'. apply Hfit. rewrite Hl. by right.
Qed.

Lemma uncomment_block_uncommented target prefix :
  fits_scanner target → uncomment_block target prefix = uncommented target prefix.
Proof.
  intros Hfit. unfold uncomment_block, uncommented, Scan, NewScanner. simpl.
  destruct target as [|c d] eqn:Et; [done|]. rewrite <- Et in *.
  destruct (cut_line target) as [l r] eqn:Ec.
  pose proof (raw_lines_cut_line target l r ltac:(by subst) Ec) as Hl.
  assert ((MaxScanTokenSize <=? len l) = false) as ->.
  { apply Z.leb_gt, Hfit. rewrite Hl. by left. }
  rewrite Hl, uncomment_loop_lines; cbn [input Text token stopped]; [done..|].
  intros l' Hl'. apply Hfit. rewrite Hl. by right.
Qed.

(** Only the empty block gives the scanner nothing to read, among the
    blocks whose lines fit. *)
Lemma Scan_first target :
  fits_scanner target →
  (Scan (NewScanner target)).1 = bool_decide (target ≠ []).
Proof.
  intros Hfit. unfold Scan, NewScanner. simpl.
  destruct target as [|c d] eqn:Et; [done|]. rewrite <- Et in *.
  destruct (cut_line target) as [l r] eqn:Ec.
  pose proof (raw_lines_cut_line target l r ltac:(by subst) Ec) as Hl.
  assert ((MaxScanTokenSize <=? len l) = false) as ->.
  { apply Z.leb_gt, Hfit. rewrite Hl. by left. }
  simpl. symmetry. apply bool_decide_eq_true_2. by subst.
Qed.

End uncomment_facts.

(** * The system calls, run *)
Section os_facts.

Import os.

Lemma bind_run {S A B} (m : M S A) (k : A → M S B) (s : S) :
  (m ≫= k) s =
  match m s with
  | (Ok a, s') => k a s'
  | (Err e, s') => (Err e, s')
  end.
Proof. done. Qed.

Lemma ret_run {S A} (a : A) (s : S) : (mret a : M S A) s = (Ok a, s).
Proof. done. Qed.

Lemma logged_logged w es es' : logged (logged w es) es' = logged w (es ++ es').
Proof. unfold logged. simpl. by rewrite <- app_assoc. Qed.

Lemma Stat_run path w :
  Stat path w =
  (match files w !! path with
   | Some f => Ok (mode f)
   | None => Err (PathError "stat" path ENOENT)
   end, logged w [EvStat path]).
Proof.
  unfold Stat. rewrite bind_run. cbn [log]. rewrite bind_run.
  unfold lookup_file. cbn [files logged]. by destruct (files w !! path).
Qed.

Lemma ReadFile_run path w :
  ReadFile path w =
  (match files w !! path with
   | Some f =>
       if readable f then Ok (content f)
       else Err (PathError "open" path EACCES)
   | None => Err (PathError "open" path ENOENT)
   end, logged w [EvReadFile path]).
Proof.
  unfold ReadFile. rewrite bind_run. cbn [log]. rewrite bind_run.
  unfold lookup_file. cbn [files logged].
  destruct (files w !! path) as [f|]; [|done]. by destruct (readable f).
Qed.

Lemma WriteFile_run path data perm w :
  WriteFile path data perm w =
  match files w !! path with
  | Some f =>
      if writable f
      then (Ok tt, mkFS (<[path := mkFile data (mode f)]> (files w))
                     (calls w ++ [EvWriteFile path data perm]))
      else (Err (PathError "open" path EACCES),
            logged w [EvWriteFile path data perm])
  | None =>
      (Ok tt, mkFS (<[path := mkFile data perm]> (files w))
                (calls w ++ [EvWriteFile path data perm]))
  end.
Proof.
  unfold WriteFile. rewrite bind_run. cbn [log]. rewrite bind_run.
  unfold lookup_file. cbn [files logged].
  destruct (files w !! path) as [f|]; [|done]. by destruct (writable f).
Qed.

End os_facts.

(** * The four helpers, run on any file system *)
Section helpers_run.

Import os testutils.

Context `{engine : regexp.Engine}.
Variable filepath_Join : string → string → string.

Lemma ReplaceInFile_run path old new w :
  ReplaceInFile path old new w =
  match files w !! path with
  | None => (Err (PathError "stat" path ENOENT), logged w [EvStat path])
  | Some f =>
      if readable f then
        if strings.Contains (content f) old then
          let s := strings.Replace (content f) old new (-1) in
          if writable f then
            (Ok tt, mkFS (<[path := mkFile s (mode f)]> (files w))
                      (calls w ++ [EvStat path; EvReadFile path;
                                   EvWriteFile path s (mode f)]))
          else (Err (PathError "open" path EACCES),
                logged w [EvStat path; EvReadFile path;
                          EvWriteFile path s (mode f)])
        else (Err not_found, logged w [EvStat path; EvReadFile path])
      else (Err (PathError "open" path EACCES),
            logged w [EvStat path; EvReadFile path])
  end.
Proof.
  unfold ReplaceInFile. rewrite bind_run, Stat_run.
  destruct (files w !! path) as [f|] eqn:Hf; [|done].
  rewrite bind_run, ReadFile_run. cbn [files logged]. rewrite Hf.
  rewrite logged_logged. cbn [app].
  destruct (readable f); [|done].
  destruct (strings.Contains (content f) old); cbn [negb]; [|done].
  rewrite WriteFile_run. cbn [files logged calls]. rewrite Hf.
  rewrite ?logged_logged, <- app_assoc. by destruct (writable f).
Qed.

Lemma ReplaceRegexInFile_run path match_ replace w :
  ReplaceRegexInFile path match_ replace w =
  match regexp.Compile match_ with
  | inl (code, expr) => (Err (SyntaxError code expr), w)
  | inr matcher =>
      match files w !! path with
      | None => (Err (PathError "stat" path ENOENT), logged w [EvStat path])
      | Some f =>
          if readable f then
            let s := regexp.ReplaceAllString matcher (content f) replace in
            if bool_decide (s = content f) then
              (Err not_found, logged w [EvStat path; EvReadFile path])
            else if writable f then
              (Ok tt, mkFS (<[path := mkFile s (mode f)]> (files w))
                        (calls w ++ [EvStat path; EvReadFile path;
                                     EvWriteFile path s (mode f)]))
            else (Err (PathError "open" path EACCES),
                  logged w [EvStat path; EvReadFile path;
                            EvWriteFile path s (mode f)])
          else (Err (PathError "open" path EACCES),
                logged w [EvStat path; EvReadFile path])
      end
  end.
Proof.
  unfold ReplaceRegexInFile.
  destruct (regexp.Compile match_) as [[code expr]|matcher]; [done|].
  rewrite bind_run, Stat_run.
  destruct (files w !! path) as [f|] eqn:Hf; [|done].
  rewrite bind_run, ReadFile_run. cbn [files logged]. rewrite Hf.
  rewrite logged_logged. cbn [app].
  destruct (readable f); [|done]. cbn zeta.
  destruct (bool_decide _); [done|].
  rewrite WriteFile_run. cbn [files logged calls]. rewrite Hf.
  rewrite ?logged_logged, <- app_assoc. by destruct (writable f).
Qed.

Lemma UncommentCode_run filename target prefix w :
  UncommentCode filename target prefix w =
  match files w !! filename with
  | None => (Err (PathError "open" filename ENOENT),
             logged w [EvReadFile filename])
  | Some f =>
      if readable f then
        let idx := strings.Index (content f) target in
        if idx <? 0 then
          (Err (uncomment_error target), logged w [EvReadFile filename])
        else if (bufio.Scan (bufio.NewScanner target)).1 then
          let out := slice_to (content f) idx ++ uncomment_block target prefix ++
                     slice_from (content f) (idx + len target) in
          if writable f then
            (Ok tt, mkFS (<[filename := mkFile out (mode f)]> (files w))
                      (calls w ++ [EvReadFile filename;
                                   EvWriteFile filename out 420]))
          else (Err (PathError "open" filename EACCES),
                logged w [EvReadFile filename; EvWriteFile filename out 420])
        else (Ok tt, logged w [EvReadFile filename])
      else (Err (PathError "open" filename EACCES),
            logged w [EvReadFile filename])
  end.
Proof.
  unfold UncommentCode. rewrite bind_run, ReadFile_run.
  destruct (files w !! filename) as [f|] eqn:Hf; [|done].
  destruct (readable f); [|done]. cbn zeta.
  destruct (_ <? 0); [done|].
  unfold uncomment_block.
  destruct (bufio.Scan (bufio.NewScanner target)) as [[] sc]; cbn [negb fst]; [|done].
  rewrite uncomment_loop_out, <- app_assoc.
  rewrite WriteFile_run. cbn [files logged calls]. rewrite Hf.
  rewrite ?logged_logged, <- app_assoc. by destruct (writable f).
Qed.

Lemma AllowProjectBeMultiGroup_run tc w :
  let path := filepath_Join (Dir (kb tc)) "PROJECT" in
  AllowProjectBeMultiGroup filepath_Join tc w =
  match files w !! path with
  | None => (Err (PathError "open" path ENOENT), logged w [EvReadFile path])
  | Some f =>
      if readable f then
        let out := multiGroup ++ content f in
        if writable f then
          (Ok tt, mkFS (<[path := mkFile out (mode f)]> (files w))
                    (calls w ++ [EvReadFile path; EvWriteFile path out 420]))
        else (Err (PathError "open" path EACCES),
              logged w [EvReadFile path; EvWriteFile path out 420])
      else (Err (PathError "open" path EACCES), logged w [EvReadFile path])
  end.
Proof.
  intros path. unfold AllowProjectBeMultiGroup. fold path.
  rewrite bind_run, ReadFile_run.
  destruct (files w !! path) as [f|] eqn:Hf; [|done].
  destruct (readable f); [|done].
  rewrite WriteFile_run. cbn [files logged calls]. rewrite Hf.
  rewrite ?logged_logged, <- app_assoc. by destruct (writable f).
Qed.

(** ** Literal replacement *)

(** Claim C2, as amended. For a readable file holding [old]:
    [ReplaceInFile] on a writable file succeeds and leaves the content
    [strings.Replace(content, old, new, -1)] under the same mode, which
    for a non-empty [old] is the content with every instance of [old],
    found from the left without overlap, replaced by [new]; no instance
    of [old] remains when [old] and [new] are non-empty and share no
    byte. For a readable file without [old], it returns the error
    "unable to find the content to be replaced" and writes nothing. *)
Theorem C2_ReplaceInFile path old new w f :
  files w !! path = Some f → readable f = true →
  (occurs old (content f) → writable f = true →
   let s := strings.Replace (content f) old new (-1) in
   ReplaceInFile path old new w =
     (Ok tt, mkFS (<[path := mkFile s (mode f)]> (files w))
               (calls w ++ [EvStat path; EvReadFile path;
                            EvWriteFile path s (mode f)])) ∧
   (old ≠ [] → s = replace_all 0 (content f) old new) ∧
   (old ≠ [] → new ≠ [] → (∀ c, c ∈ new → c ∉ old) → ¬ occurs old s)) ∧
  (¬ occurs old (content f) →
   ReplaceInFile path old new w =
     (Err not_found, logged w [EvStat path; EvReadFile path])).
Proof.
  intros Hf Hr. rewrite ReplaceInFile_run, Hf, Hr. split.
  - intros Ho Hw. apply Contains_spec in Ho. rewrite Ho, Hw. cbn zeta.
    assert (old ≠ [] →
            strings.Replace (content f) old new (-1) =
            replace_all 0 (content f) old new) as Hscan.
    { intros Hold. destruct (decide (old = new)) as [<-|Hne].
      - rewrite replace_all_same by done. unfold strings.Replace.
        by rewrite bool_decide_eq_true_2.
      - by apply Replace_replace_all. }
    split; [done|]. split; [done|].
    intros Hold Hnew Hdisj. rewrite Hscan by done.
    rewrite occurs_prefix_drop. intros [j Hj].
    by apply (replace_all_none_left old new Hold 0%nat (content f) Hnew Hdisj j).
  - intros Ho. apply Contains_false in Ho. by rewrite Ho.
Qed.

(** ** Regular expression replacement *)

(** Claim C3. For a valid pattern and a readable file: when the
    substitution gives back the content, byte for byte,
    [ReplaceRegexInFile] returns the error "unable to find the content
    to be replaced" and writes nothing; when it gives something else,
    the helper succeeds on a writable file, which then holds the
    substituted content. *)
Theorem C3_ReplaceRegexInFile path match_ replace w f matcher :
  regexp.Compile match_ = inr matcher →
  files w !! path = Some f → readable f = true →
  let s := regexp.ReplaceAllString matcher (content f) replace in
  (s = content f →
   ReplaceRegexInFile path match_ replace w =
     (Err not_found, logged w [EvStat path; EvReadFile path])) ∧
  (s ≠ content f → writable f = true →
   ReplaceRegexInFile path match_ replace w =
     (Ok tt, mkFS (<[path := mkFile s (mode f)]> (files w))
               (calls w ++ [EvStat path; EvReadFile path;
                            EvWriteFile path s (mode f)]))).
Proof.
  intros Hc Hf Hr s. rewrite ReplaceRegexInFile_run, Hc, Hf, Hr. cbn zeta.
  fold s. split.
  - intros Hs. by rewrite bool_decide_eq_true_2.
  - intros Hs Hw. by rewrite bool_decide_eq_false_2, Hw.
Qed.

(** Claim C8. A pattern that does not compile makes
    [ReplaceRegexInFile] return the compilation error with the file
    system as it was: no call to it is made, whatever the path. *)
Theorem C8_ReplaceRegexInFile_syntax path match_ replace w code expr :
  regexp.Compile match_ = inl (code, expr) →
  ReplaceRegexInFile path match_ replace w = (Err (SyntaxError code expr), w).
Proof. intros Hc. by rewrite ReplaceRegexInFile_run, Hc. Qed.

(** ** Uncommenting *)

(** Claim C7. When the non-empty block [target] is not in a readable
    file, [UncommentCode] returns the error "unable to find the code
    ... to be uncomment" after reading the file, and writes nothing. *)
Theorem C7_UncommentCode_not_found filename target prefix w f :
  files w !! filename = Some f → readable f = true →
  target ≠ [] → ¬ occurs target (content f) →
  UncommentCode filename target prefix w =
    (Err (uncomment_error target), logged w [EvReadFile filename]).
Proof.
  intros Hf Hr _ Ho. rewrite UncommentCode_run, Hf, Hr. cbn zeta.
  apply Index_neg in Ho. by apply Z.ltb_lt in Ho as ->.
Qed.

(** ** Prepending *)

(** Claim C9. On a readable and writable PROJECT file,
    [AllowProjectBeMultiGroup] succeeds and leaves the line
    "multigroup: true" followed by the former content; whenever it
    fails, the error is one of the file system on that path. *)
Theorem C9_AllowProjectBeMultiGroup tc w :
  let path := filepath_Join (Dir (kb tc)) "PROJECT" in
  (∀ f, files w !! path = Some f → readable f = true → writable f = true →
     AllowProjectBeMultiGroup filepath_Join tc w =
       (Ok tt,
        mkFS (<[path := mkFile (str "multigroup: true" ++ [LF] ++ content f)
                          (mode f)]> (files w))
          (calls w ++ [EvReadFile path;
                       EvWriteFile path
                         (str "multigroup: true" ++ [LF] ++ content f) 420]))) ∧
  (∀ e w', AllowProjectBeMultiGroup filepath_Join tc w = (Err e, w') →
     ∃ op errno, e = PathError op path errno).
Proof.
  intros path. pose proof (AllowProjectBeMultiGroup_run tc w) as Hrun.
  cbn zeta in Hrun. fold path in Hrun. rewrite Hrun. split.
  - intros f Hf Hr Hw. rewrite Hf, Hr, Hw. unfold multiGroup.
    by rewrite <- app_assoc.
  - intros e w'. destruct (files w !! path) as [f|]; [|intros [= <- _]; eauto].
    destruct (readable f); [|intros [= <- _]; eauto].
    destruct (writable f); [done|intros [= <- _]; eauto].
Qed.


(** ** All or nothing *)


Lemma last_app2 {A} (l : list A) a b : last (l ++ [a; b]) = Some b.
Proof. by rewrite !last_app. Qed.


(** ** File modes *)


(** [AllowProjectBeMultiGroup] too passes the fixed mode 0644 to
    [WriteFile]; the file keeps its mode because it exists. *)
Lemma AllowProjectBeMultiGroup_perm tc w w' :
  AllowProjectBeMultiGroup filepath_Join tc w = (Ok tt, w') →
  ∃ data, last (calls w') =
          Some (EvWriteFile (filepath_Join (Dir (kb tc)) "PROJECT") data 420).
Proof.
  pose proof (AllowProjectBeMultiGroup_run tc w) as Hrun.
  cbn zeta in Hrun. rewrite Hrun. clear Hrun.
  destruct (files w !! _) as [f|]; [|done].
  destruct (readable f); [|done].
  destruct (writable f); [|done]. intros [= <-]. eexists. apply last_app2.
Qed.

(** A first line too long for the scanner: [UncommentCode] gives up
    without an error and without writing. *)
Lemma UncommentCode_first_line_too_long filename target prefix w f l r :
  files w !! filename = Some f → readable f = true →
  occurs target (content f) →
  bufio.cut_line target = (l, r) → bufio.MaxScanTokenSize <= len l →
  UncommentCode filename target prefix w = (Ok tt, logged w [EvReadFile filename]).
Proof.
  intros Hf Hr Ho Hc Hl. rewrite UncommentCode_run, Hf, Hr. cbn zeta.
  assert ((strings.Index (content f) target <? 0) = false) as ->.
  { apply Z.ltb_ge.
    destruct (Z.lt_ge_cases (strings.Index (content f) target) 0) as [Hlt|];
      [|done].
    by apply Index_neg in Hlt. }
  unfold bufio.Scan, bufio.NewScanner. cbn [bufio.stopped bufio.input].
  destruct target as [|c d] eqn:Et.
  { simpl in Hc. injection Hc as <- <-. by vm_compute in Hl. }
  rewrite Hc. by apply Z.leb_le in Hl as ->.
Qed.

End helpers_run.

(** * The prerequisites of a test run *)
Section prerequisites.

Import testutils.

Variable filepath_Base : string → string.
Variable strings_ToLower : string → string.
Variable kbtestutils_NewTestContext : string → list string → result kbTestContext.
Variable OlmVersionForTestSuite : string.

Let NewTestContext :=
  NewTestContext filepath_Base strings_ToLower kbtestutils_NewTestContext.

Lemma exec_run c k :
  exec c k = (respond k c, mkCluster (respond k) (history k ++ [c]) (warnings k)).
Proof. done. Qed.

(** A context made by [NewTestContext] has both flags set. *)
Lemma NewTestContext_flags binaryName env tc :
  NewTestContext binaryName env = Ok tc →
  isPrometheusManagedBySuite tc = true ∧ isOLMManagedBySuite tc = true.
Proof.
  unfold NewTestContext, testutils.NewTestContext.
  destruct (kbtestutils_NewTestContext binaryName env); [|done].
  by intros [= <-].
Qed.

(** [InstallPrerequisites] installs what the cluster lacks: Prometheus
    is installed only when "servicemonitors" is not in the output of
    [kubectl api-resources], OLM only when "clusterserviceversions" is
    not. *)
Lemma InstallPrerequisites_only_absent binaryName env tc k output :
  NewTestContext binaryName env = Ok tc →
  respond k (KubectlCommand ["api-resources"%string]) = Ok output →
  let k' := (InstallPrerequisites OlmVersionForTestSuite tc k).2 in
  (InstallPrometheusOperManager ∈ drop (length (history k)) (history k') →
   strings.Contains output (str "servicemonitors") = false) ∧
  (Run [BinaryName (kb tc); "olm"; "install"; "--version";
        OlmVersionForTestSuite; "--timeout"; "4m"]%string
     ∈ drop (length (history k)) (history k') →
   strings.Contains output (str "clusterserviceversions") = false).
Proof.
  intros Htc Hout. apply NewTestContext_flags in Htc as [Hp Ho].
  unfold InstallPrerequisites, InstallOLMVersion.
  rewrite bind_run, exec_run, Hout.
  destruct (strings.Contains output (str "servicemonitors"));
    destruct (strings.Contains output (str "clusterserviceversions"));
    cbn [isPrometheusManagedBySuite isOLMManagedBySuite kb
         set_isPrometheusManagedBySuite set_isOLMManagedBySuite];
    rewrite ?Hp, ?Ho;
    repeat (first [ rewrite bind_run | rewrite exec_run | rewrite ret_run
                  | progress cbn [respond history warnings]
                  | match goal with
                    | |- context [respond ?k ?c] => destruct (respond k c)
                    end ]);
    cbn [snd history]; rewrite <- ?app_assoc, ?drop_app_length;
    (split; intros H; [try done..]);
    repeat (apply elem_of_cons in H as [H|H]; [done|]);
    by apply elem_of_nil in H.
Qed.

(** Claim C6, where the code departs from it. On a cluster that already
    has Prometheus and OLM, a run on a context made by [NewTestContext]
    installs neither and still uninstalls both: the flags that
    [InstallPrerequisites] cleared were those of its own copy of [tc]. *)
Theorem C6_uninstalls_what_it_found binaryName env tc k output :
  NewTestContext binaryName env = Ok tc →
  respond k (KubectlCommand ["api-resources"%string]) = Ok output →
  strings.Contains output (str "servicemonitors") = true →
  strings.Contains output (str "clusterserviceversions") = true →
  history (prerequisites_run OlmVersionForTestSuite tc k).2 =
    history k ++
    [KubectlCommand ["api-resources"%string];
     UninstallPrometheusOperManager;
     Run [BinaryName (kb tc); "olm"; "uninstall"]%string].
Proof.
  intros Htc Hout Hprom Holm. apply NewTestContext_flags in Htc as [Hp Ho].
  unfold prerequisites_run, InstallPrerequisites, UninstallPrerequisites, UninstallOLM.
  rewrite !bind_run, exec_run, Hout, Hprom, Holm.
  cbn [isPrometheusManagedBySuite isOLMManagedBySuite
       set_isPrometheusManagedBySuite set_isOLMManagedBySuite].
  rewrite !bind_run, !ret_run, Hp, Ho, bind_run.
  unfold warn_on_error. rewrite !exec_run. cbn [respond history warnings].
  destruct (respond k UninstallPrometheusOperManager);
    rewrite exec_run; cbn [respond history warnings];
    match goal with
    | |- context [respond k ?c] => destruct (respond k c)
    end; cbn [snd history];
    by rewrite <- !app_assoc.
Qed.

End prerequisites.

(** * The helpers on concrete files *)

Section concrete.

Import os testutils.

(** Claim C1, where the code departs from it. On the content
    "x\n// line1\n// line2\ny\n", the block "// line1\n// line2\n" and
    the prefix "// ", [UncommentCode] succeeds and leaves
    "x\nline1\nline2y\n": the line feed that ends the block is lost, so
    the content is not the "x\nline1\nline2\ny\n" of the claim. *)
Theorem C1_UncommentCode_example :
  let result := str "x" ++ [LF] ++ str "line1" ++ [LF] ++ str "line2y" ++ [LF] in
  UncommentCode "f" block (str "// ") (one_file "f" commented 420) =
    (Ok tt, mkFS {[ "f"%string := mkFile result 420 ]}
              [EvReadFile "f"; EvWriteFile "f" result 420]) ∧
  result ≠ str "x" ++ [LF] ++ str "line1" ++ [LF] ++ str "line2" ++ [LF] ++
           str "y" ++ [LF].
Proof.
  split; [by vm_compute|done].
Qed.

(** Removing "ab" from "aabb" leaves "ab". *)
Lemma C2_counterexample :
  ¬ none_left "f" (str "ab") [] (one_file "f" (str "aabb") 420).
Proof.
  intros H.
  apply (H (mkFile (str "aabb") 420) (mkFile (str "ab") 420)).
  - apply lookup_singleton_eq.
  - by apply Contains_spec.
  - by apply Contains_false.
  - by vm_compute.
  - by apply Contains_spec.
Qed.

Lemma C2_ReplaceInFile_witness :
  ReplaceInFile "f" (str "line") (str "row") (one_file "f" commented 384) =
    (Ok tt,
     mkFS (<["f"%string :=
              mkFile (strings.Replace commented (str "line") (str "row") (-1)) 384]>
             (files (one_file "f" commented 384)))
       [EvStat "f"; EvReadFile "f";
        EvWriteFile "f"
          (strings.Replace commented (str "line") (str "row") (-1)) 384]).
Proof.
  refine (proj1 (proj1 (C2_ReplaceInFile "f" (str "line") (str "row")
                          (one_file "f" commented 384)
                          (mkFile commented 384) _ _) _ _)).
  - apply lookup_singleton_eq.
  - reflexivity.
  - apply Contains_spec. reflexivity.
  - reflexivity.
Defined.

Lemma C3_ReplaceRegexInFile_witness :
  ReplaceRegexInFile (engine := literal_engine) "f" (str "absent") (str "row")
    (one_file "f" commented 384) =
    (Err not_found,
     logged (one_file "f" commented 384) [EvStat "f"; EvReadFile "f"]).
Proof.
  refine (proj1 (C3_ReplaceRegexInFile (engine := literal_engine)
                   "f" (str "absent") (str "row")
                   (one_file "f" commented 384) (mkFile commented 384)
                   (str "absent") _ _ _) _).
  - reflexivity.
  - apply lookup_singleton_eq.
  - reflexivity.
  - reflexivity.
Defined.

Lemma C8_ReplaceRegexInFile_syntax_witness :
  ReplaceRegexInFile (engine := literal_engine) "missing" (str "(") (str "row")
    (one_file "f" commented 384) =
    (Err (SyntaxError "unsupported or malformed pattern" (str "(")),
     one_file "f" commented 384).
Proof.
  apply (C8_ReplaceRegexInFile_syntax (engine := literal_engine)).
  reflexivity.
Defined.

Lemma C7_UncommentCode_not_found_witness :
  UncommentCode "f" (str "# line1") (str "# ") (one_file "f" commented 384) =
    (Err (uncomment_error (str "# line1")),
     logged (one_file "f" commented 384) [EvReadFile "f"]).
Proof.
  apply (C7_UncommentCode_not_found "f" (str "# line1") (str "# ")
           (one_file "f" commented 384) (mkFile commented 384)).
  - apply lookup_singleton_eq.
  - reflexivity.
  - discriminate.
  - apply Contains_false. reflexivity.
Defined.

Lemma fits_scanner_Forall target :
  Forall (λ l, len l < bufio.MaxScanTokenSize) (raw_lines target) →
  fits_scanner target.
Proof. intros H l Hl. by eapply Forall_forall in H. Qed.




Lemma C9_AllowProjectBeMultiGroup_witness :
  AllowProjectBeMultiGroup join_slash project
    (one_file "e2e-abcd/PROJECT" (str "domain: example.com" ++ [LF]) 384) =
  (Ok tt,
   mkFS (<["e2e-abcd/PROJECT"%string :=
            mkFile (str "multigroup: true" ++ [LF] ++
                    str "domain: example.com" ++ [LF]) 384]>
           (files (one_file "e2e-abcd/PROJECT"
                     (str "domain: example.com" ++ [LF]) 384)))
     [EvReadFile "e2e-abcd/PROJECT";
      EvWriteFile "e2e-abcd/PROJECT"
        (str "multigroup: true" ++ [LF] ++ str "domain: example.com" ++ [LF])
        420]).
Proof.
  apply (proj1 (C9_AllowProjectBeMultiGroup join_slash project
                  (one_file "e2e-abcd/PROJECT"
                     (str "domain: example.com" ++ [LF]) 384))
           (mkFile (str "domain: example.com" ++ [LF]) 384)).
  - apply lookup_singleton_eq.
  - reflexivity.
  - reflexivity.
Defined.



Lemma C6_uninstalls_what_it_found_witness :
  history
    (prerequisites_run "0.17.0" project provisioned).2 =
  [KubectlCommand ["api-resources"%string];
   UninstallPrometheusOperManager;
   Run ["operator-sdk"; "olm"; "uninstall"]%string].
Proof.
  apply (C6_uninstalls_what_it_found (λ d, d) (λ s, s)
           (λ binaryName _, Ok (mkKb "e2e-abcd" binaryName ""))
           "0.17.0" "operator-sdk" [] project provisioned
           (str "servicemonitors" ++ [LF] ++ str "clusterserviceversions" ++ [LF])).
  - reflexivity.
  - reflexivity.
  - reflexivity.
  - reflexivity.
Defined.

Lemma cut_line_replicate n c :
  c ≠ LF → bufio.cut_line (replicate n c) = (replicate n c, None).
Proof.
  intros Hc. induction n as [|n IH]; simpl; [done|].
  destruct (decide (c = LF)); [done|]. by rewrite IH.
Qed.

(** A commented line of 64 KiB or more: [UncommentCode] returns no
    error and leaves the file commented. *)
Lemma UncommentCode_long_line n :
  bufio.MaxScanTokenSize <= Z.of_nat n →
  let line := str "// " ++ replicate n "a"%char in
  UncommentCode "f" line (str "// ") (one_file "f" line 420) =
    (Ok tt, logged (one_file "f" line 420) [EvReadFile "f"]).
Proof.
  intros Hn line.
  apply (UncommentCode_first_line_too_long "f" line (str "// ")
           (one_file "f" line 420) (mkFile line 420) line None).
  - apply lookup_singleton_eq.
  - done.
  - exists [], []. by rewrite app_nil_r.
  - unfold line. cbn [str String.list_ascii_of_string app bufio.cut_line].
    repeat (destruct (decide _) as [|_]; [done|]).
    by rewrite cut_line_replicate.
  - unfold line, len. rewrite length_app, length_replicate. lia.
Qed.

(** ** The functions on small inputs *)

Example Index_found : strings.Index (str "hello") (str "ll") = 2.
Proof. reflexivity. Qed.

Example Index_absent : strings.Index (str "hello") (str "lll") = -1.
Proof. reflexivity. Qed.

Example TrimPrefix_once :
  strings.TrimPrefix (str "// // x") (str "// ") = str "// x".
Proof. reflexivity. Qed.

Example Replace_every_instance :
  strings.Replace (str "a-b-c") (str "-") (str "+") (-1) = str "a+b+c".
Proof. reflexivity. Qed.

Example Replace_empty_old :
  strings.Replace (str "ab") [] (str "-") (-1) = str "-a-b-".
Proof. reflexivity. Qed.

Example Replace_without_overlap :
  strings.Replace (str "aaa") (str "aa") (str "b") (-1) = str "ba".
Proof. reflexivity. Qed.

Example raw_lines_block : raw_lines block = [str "// line1"; str "// line2"].
Proof. reflexivity. Qed.

Example raw_lines_blank :
  raw_lines (str "a" ++ [LF; LF] ++ str "b") = [str "a"; []; str "b"].
Proof. reflexivity. Qed.

Example uncomment_block_block :
  uncomment_block block (str "// ") = str "line1" ++ [LF] ++ str "line2".
Proof. by vm_compute. Qed.

Example uncomment_block_carriage_return :
  uncomment_block (str "# a" ++ [CR; LF] ++ str "# b") (str "# ") =
  str "a" ++ [LF] ++ str "b".
Proof. by vm_compute. Qed.

(** Without the line feed at its end, the block of claim C1 is
    uncommented as the claim expects. *)
Example UncommentCode_block_without_final_newline :
  let result := str "x" ++ [LF] ++ str "line1" ++ [LF] ++ str "line2" ++ [LF] ++
                str "y" ++ [LF] in
  UncommentCode "f" (str "// line1" ++ [LF] ++ str "// line2") (str "// ")
    (one_file "f" commented 420) =
    (Ok tt, mkFS {[ "f"%string := mkFile result 420 ]}
              [EvReadFile "f"; EvWriteFile "f" result 420]).
Proof. by vm_compute. Qed.

(** Prepending twice gives the line twice. *)
Example AllowProjectBeMultiGroup_twice :
  (AllowProjectBeMultiGroup join_slash project;;
   AllowProjectBeMultiGroup join_slash project)
    (one_file "e2e-abcd/PROJECT" (str "domain: example.com" ++ [LF]) 384) =
  (Ok tt,
   mkFS {[ "e2e-abcd/PROJECT"%string :=
             mkFile (multiGroup ++ multiGroup ++ str "domain: example.com" ++ [LF])
               384 ]}
     [EvReadFile "e2e-abcd/PROJECT";
      EvWriteFile "e2e-abcd/PROJECT"
        (multiGroup ++ str "domain: example.com" ++ [LF]) 420;
      EvReadFile "e2e-abcd/PROJECT";
      EvWriteFile "e2e-abcd/PROJECT"
        (multiGroup ++ multiGroup ++ str "domain: example.com" ++ [LF]) 420]).
Proof. by vm_compute. Qed.

(** On a cluster with neither Prometheus nor OLM, a run installs both
    and uninstalls both. *)
Example prerequisites_run_bare_cluster :
  history
    (prerequisites_run "0.17.0" project (mkCluster (λ _, Ok []) [] [])).2 =
  [KubectlCommand ["api-resources"%string];
   InstallPrometheusOperManager;
   KubectlGet false ["Service"; "prometheus-operator"]%string;
   Run ["operator-sdk"; "olm"; "install"; "--version"; "0.17.0";
        "--timeout"; "4m"]%string;
   UninstallPrometheusOperManager;
   Run ["operator-sdk"; "olm"; "uninstall"]%string].
Proof. reflexivity. Qed.

End concrete.

(** * What the helpers leave alone *)
Section helpers_frame.

Import os testutils.

Context {engine : regexp.Engine}.
Variable filepath_Join : string → string → string.

(** Property X1. Whatever its arguments and its outcome, a helper
    changes no file but its own, and neither creates nor removes a
    file. *)
Theorem helpers_touch_one_file op w :
  (∀ p, p ≠ path_of filepath_Join op →
     files (run filepath_Join op w).2 !! p = files w !! p) ∧
  dom (files (run filepath_Join op w).2) = dom (files w).
Proof.
  assert (∀ path f data m,
            files w !! path = Some f →
            (∀ p, p ≠ path → <[path := mkFile data m]> (files w) !! p = files w !! p) ∧
            dom (<[path := mkFile data m]> (files w)) = dom (files w)) as Hins.
  { intros path f data m Hf. split.
    - intros p Hp. by rewrite lookup_insert_ne.
    - rewrite dom_insert_L. apply subseteq_union_1_L, singleton_subseteq_l.
      by eapply elem_of_dom_2. }
  destruct op as [path old new|path match_ replace|filename target prefix|tc];
    cbn [run path_of].
  - rewrite ReplaceInFile_run.
    destruct (files w !! path) as [f|] eqn:Hf; [|done].
    destruct (readable f); [|done].
    destruct (strings.Contains _ _); [|done]. cbn zeta.
    destruct (writable f); [|done]. cbn [snd files]. by eapply Hins.
  - rewrite ReplaceRegexInFile_run.
    destruct (regexp.Compile match_) as [[code expr]|matcher]; [done|].
    destruct (files w !! path) as [f|] eqn:Hf; [|done].
    destruct (readable f); [|done]. cbn zeta.
    destruct (bool_decide _); [done|].
    destruct (writable f); [|done]. cbn [snd files]. by eapply Hins.
  - rewrite UncommentCode_run.
    destruct (files w !! filename) as [f|] eqn:Hf; [|done].
    destruct (readable f); [|done]. cbn zeta.
    destruct (_ <? 0); [done|].
    destruct (bufio.Scan _).1; [|done].
    destruct (writable f); [|done]. cbn [snd files]. by eapply Hins.
  - pose proof (AllowProjectBeMultiGroup_run filepath_Join tc w) as Hrun.
    cbn zeta in Hrun. rewrite Hrun. clear Hrun.
    destruct (files w !! _) as [f|] eqn:Hf; [|done].
    destruct (readable f); [|done].
    destruct (writable f); [|done]. cbn [snd files]. by eapply Hins.
Qed.



(** Property X4. Replacing a text by itself: [ReplaceInFile] succeeds
    on a file that holds the text and leaves every file as it was. *)
Theorem ReplaceInFile_by_itself path old w f :
  files w !! path = Some f → readable f = true → writable f = true →
  occurs old (content f) →
  ∃ w', ReplaceInFile path old old w = (Ok tt, w') ∧ files w' = files w.
Proof.
  intros Hf Hr Hw Ho. rewrite ReplaceInFile_run, Hf, Hr, Hw.
  apply Contains_spec in Ho as ->. cbn zeta. eexists. split; [done|].
  cbn [files]. unfold strings.Replace. rewrite bool_decide_eq_true_2 by done.
  cbn [orb]. apply insert_id. rewrite Hf. by destruct f.
Qed.

(** Property X5. A successful [ReplaceRegexInFile] has changed the
    content of its file. *)
Theorem ReplaceRegexInFile_changes path match_ replace w w' f :
  files w !! path = Some f →
  ReplaceRegexInFile path match_ replace w = (Ok tt, w') →
  ∃ f', files w' !! path = Some f' ∧ content f' ≠ content f ∧ mode f' = mode f.
Proof.
  intros Hf. rewrite ReplaceRegexInFile_run, Hf.
  destruct (regexp.Compile match_) as [[code expr]|matcher]; [done|].
  destruct (readable f); [|done]. cbn zeta.
  case_bool_decide as Hs; [done|].
  destruct (writable f); [|done]. intros [= <-]. eexists. cbn [files].
  rewrite lookup_insert_eq. by split.
Qed.

(** Property X18. The calls a helper makes to the file system are all
    about its own file, and a write, if there is one, is the last call
    and comes after a read of that file. *)
Theorem helpers_read_then_write op w :
  ∃ es,
    calls (run filepath_Join op w).2 = calls w ++ es ∧
    Forall (λ e, event_path e = path_of filepath_Join op) es ∧
    ∀ es1 e es2,
      es = es1 ++ e :: es2 → is_write e = true →
      es2 = [] ∧ EvReadFile (path_of filepath_Join op) ∈ es1.
Proof.
  assert (∀ p (es : list Event),
            Forall (λ e, event_path e = p) es →
            (∃ n, take n [EvStat p; EvReadFile p] = es ∨
                  take n [EvReadFile p] = es) →
            Forall (λ e, event_path e = p) es ∧
            ∀ es1 e es2,
              es = es1 ++ e :: es2 → is_write e = true →
              es2 = [] ∧ EvReadFile p ∈ es1) as Hreads.
  { intros p es Hes [n Hn]. split; [done|]. intros es1 e es2 -> He.
    destruct Hn as [Hn|Hn]; destruct n as [|[|[|n]]]; cbn in Hn;
      destruct es1 as [|? [|? [|? es1]]]; simplify_eq/=. }
  assert (∀ p data perm (rs : list Event),
            rs = [EvStat p; EvReadFile p] ∨ rs = [EvReadFile p] →
            Forall (λ e, event_path e = p) (rs ++ [EvWriteFile p data perm]) ∧
            ∀ es1 e es2,
              rs ++ [EvWriteFile p data perm] = es1 ++ e :: es2 →
              is_write e = true →
              es2 = [] ∧ EvReadFile p ∈ es1) as Hwrite.
  { intros p data perm rs Hrs. split.
    - destruct Hrs as [-> | ->]; by repeat constructor.
    - intros es1 e es2 Heq He.
      destruct Hrs as [-> | ->];
        destruct es1 as [|? [|? [|? es1]]]; simplify_eq/=;
        try (destruct es1; simplify_eq/=);
        (split; [done|]); set_unfold; auto. }
  destruct op as [path old new|path match_ replace|filename target prefix|tc];
    cbn [run path_of].
  - rewrite ReplaceInFile_run.
    destruct (files w !! path) as [f|].
    + destruct (readable f);
        [destruct (strings.Contains _ _); [cbn zeta; destruct (writable f)|]|];
        eexists; (split; [reflexivity|]);
        first [ apply (Hwrite path _ _ [EvStat path; EvReadFile path]); by left
              | apply Hreads; [by repeat constructor|exists 2%nat; by left] ].
    + eexists. split; [reflexivity|].
      apply Hreads; [by repeat constructor|exists 1%nat; by left].
  - rewrite ReplaceRegexInFile_run.
    destruct (regexp.Compile match_) as [[code expr]|matcher].
    { exists []. split; [by rewrite app_nil_r|].
      apply Hreads; [done|exists 0%nat; by left]. }
    destruct (files w !! path) as [f|].
    + destruct (readable f);
        [cbn zeta; destruct (bool_decide _); [|destruct (writable f)]|];
        eexists; (split; [reflexivity|]);
        first [ apply (Hwrite path _ _ [EvStat path; EvReadFile path]); by left
              | apply Hreads; [by repeat constructor|exists 2%nat; by left] ].
    + eexists. split; [reflexivity|].
      apply Hreads; [by repeat constructor|exists 1%nat; by left].
  - rewrite UncommentCode_run.
    destruct (files w !! filename) as [f|].
    + destruct (readable f);
        [cbn zeta; destruct (_ <? 0);
           [|destruct (bufio.Scan _).1; [destruct (writable f)|]]|];
        eexists; (split; [reflexivity|]);
        first [ apply (Hwrite filename _ _ [EvReadFile filename]); by right
              | apply Hreads; [by repeat constructor|exists 1%nat; by right] ].
    + eexists. split; [reflexivity|].
      apply Hreads; [by repeat constructor|exists 1%nat; by right].
  - pose proof (AllowProjectBeMultiGroup_run filepath_Join tc w) as Hrun.
    cbn zeta in Hrun. rewrite Hrun. clear Hrun.
    destruct (files w !! _) as [f|].
    + destruct (readable f); [destruct (writable f)|];
        eexists; (split; [reflexivity|]);
        first [ apply (Hwrite _ _ _ [EvReadFile _]); by right
              | apply Hreads; [by repeat constructor|exists 1%nat; by right] ].
    + eexists. split; [reflexivity|].
      apply Hreads; [by repeat constructor|exists 1%nat; by right].
Qed.

End helpers_frame.

Section concrete_frame.

Import os testutils.



Lemma ReplaceInFile_by_itself_witness :
  ∃ w', ReplaceInFile "f" (str "line") (str "line") (one_file "f" commented 420) =
          (Ok tt, w') ∧
        files w' = files (one_file "f" commented 420).
Proof.
  apply (ReplaceInFile_by_itself "f" (str "line") (one_file "f" commented 420)
           (mkFile commented 420)).
  - apply lookup_singleton_eq.
  - reflexivity.
  - reflexivity.
  - exists (str "x" ++ [LF] ++ str "// "),
      (str "1" ++ [LF] ++ str "// line2" ++ [LF] ++ str "y" ++ [LF]).
    reflexivity.
Defined.

Lemma ReplaceRegexInFile_changes_witness :
  ∃ f',
    files (ReplaceRegexInFile (engine := literal_engine) "f" (str "line") (str "row")
             (one_file "f" commented 384)).2 !! "f"%string = Some f' ∧
    content f' ≠ commented ∧ mode f' = 384.
Proof.
  apply (ReplaceRegexInFile_changes (engine := literal_engine)
           "f" (str "line") (str "row") (one_file "f" commented 384)
           (ReplaceRegexInFile (engine := literal_engine) "f" (str "line") (str "row")
              (one_file "f" commented 384)).2
           (mkFile commented 384)).
  - apply lookup_singleton_eq.
  - vm_compute. reflexivity.
Defined.

End concrete_frame.

(** * Setting up and tearing down the prerequisites *)
Section prerequisites_runs.

Import testutils.

Variable filepath_Base : string → string.
Variable strings_ToLower : string → string.
Variable kbtestutils_NewTestContext : string → list string → result kbTestContext.
Variable filepath_Abs : string → result string.
Variable OlmVersionForTestSuite : string.

Ltac run_commands :=
  repeat (first [ rewrite bind_run | rewrite exec_run | rewrite ret_run
                | progress cbn [respond history warnings fst snd app omap list_omap
                                until_failure]
                | match goal with
                  | |- context [respond ?k ?c] => destruct (respond k c)
                  end ]).


Lemma UninstallPrerequisites_run tc k :
  UninstallPrerequisites tc k =
  (Ok tt,
   mkCluster (respond k)
     (history k ++ uninstall_commands tc)
     (warnings k ++ failures k (uninstall_commands tc))).
Proof.
  unfold UninstallPrerequisites, UninstallOLM, uninstall_commands, warn_on_error.
  destruct tc as [kbc bundle name prom olm].
  destruct prom, olm;
    cbn [isPrometheusManagedBySuite isOLMManagedBySuite kb BinaryName app];
    unfold failures; run_commands; rewrite <- ?app_assoc, ?app_nil_r; try done;
    by destruct k.
Qed.

(** Property X7. [UninstallPrerequisites] never fails: it runs the
    uninstallation of each prerequisite whose flag is set, also after
    one of them failed, and every error becomes a warning. *)
Theorem UninstallPrerequisites_never_fails tc k :
  ∃ k',
    UninstallPrerequisites tc k = (Ok tt, k') ∧
    history k' = history k ++ uninstall_commands tc ∧
    warnings k' = warnings k ++ failures k (uninstall_commands tc).
Proof. rewrite UninstallPrerequisites_run. by eexists. Qed.

(** Property X8. Tearing down after a successful set-up, on a context
    made by [NewTestContext], uninstalls Prometheus and OLM whatever
    the set-up found on the cluster and whatever it installed. *)
Theorem teardown_uninstalls_both binaryName env tc k :
  NewTestContext filepath_Base strings_ToLower kbtestutils_NewTestContext
    binaryName env = Ok tc →
  (InstallPrerequisites OlmVersionForTestSuite tc k).1 = Ok tt →
  history (prerequisites_run OlmVersionForTestSuite tc k).2 =
    history (InstallPrerequisites OlmVersionForTestSuite tc k).2 ++
    [UninstallPrometheusOperManager;
     Run [BinaryName (kb tc); "olm"; "uninstall"]%string].
Proof.
  intros Htc. apply NewTestContext_flags in Htc as [Hp Ho].
  unfold prerequisites_run. rewrite bind_run.
  destruct (InstallPrerequisites OlmVersionForTestSuite tc k) as [[[]|e] k'];
    [|done].
  intros _. rewrite UninstallPrerequisites_run. unfold uninstall_commands.
  by rewrite Hp, Ho.
Qed.

(** Property X9. On a context made by [NewPartialTestContext] the
    tear-down runs no command and prints no warning. *)
Theorem NewPartialTestContext_nothing_to_uninstall binaryName dir env tc k :
  NewPartialTestContext filepath_Base strings_ToLower filepath_Abs
    binaryName dir env = Ok tc →
  UninstallPrerequisites tc k = (Ok tt, k).
Proof.
  unfold NewPartialTestContext. destruct (filepath_Abs dir); [|done].
  intros [= <-]. unfold UninstallPrerequisites.
  cbn [isPrometheusManagedBySuite isOLMManagedBySuite].
  by rewrite bind_run, !ret_run.
Qed.

(** Property X10. Whichever constructor made it, a context carries the
    image name and the bundle image name of its project name, and the
    two differ. *)
Theorem context_image_names binaryName dir env tc :
  NewTestContext filepath_Base strings_ToLower kbtestutils_NewTestContext
    binaryName env = Ok tc ∨
  NewPartialTestContext filepath_Base strings_ToLower filepath_Abs
    binaryName dir env = Ok tc →
  ImageName (kb tc) = makeImageName (ProjectName tc) ∧
  BundleImageName tc = makeBundleImageName (ProjectName tc) ∧
  ImageName (kb tc) ≠ BundleImageName tc.
Proof.
  assert (∀ p, makeImageName p ≠ makeBundleImageName p) as Hne.
  { intros p. unfold makeImageName, makeBundleImageName. intros H.
    apply (inj (String.append _)) in H. by apply (inj (String.append _)) in H. }
  unfold NewTestContext, NewPartialTestContext. intros [H|H].
  - destruct (kbtestutils_NewTestContext binaryName env); [|done].
    injection H as <-. cbn [kb ImageName BundleImageName ProjectName]. auto.
  - destruct (filepath_Abs dir); [|done].
    injection H as <-. cbn [kb ImageName BundleImageName ProjectName]. auto.
Qed.


End prerequisites_runs.

(** * Calling a helper again *)
Section helpers_again.

Import os testutils.

Variable filepath_Join : string → string → string.

Lemma concat_replicate_comm {A} n (x : list A) :
  concat (replicate n x) ++ x = x ++ concat (replicate n x).
Proof.
  induction n as [|n IH]; simpl.
  - by rewrite app_nil_r.
  - by rewrite <- app_assoc, IH.
Qed.

(** Property X12. [AllowProjectBeMultiGroup] is not idempotent: [n]
    calls put [n] times the line "multigroup: true" before the content
    of the PROJECT file. *)
Theorem AllowProjectBeMultiGroup_times n tc w f :
  files w !! filepath_Join (Dir (kb tc)) "PROJECT" = Some f →
  readable f = true → writable f = true →
  ∃ w',
    times n (AllowProjectBeMultiGroup filepath_Join tc) w = (Ok tt, w') ∧
    files w' !! filepath_Join (Dir (kb tc)) "PROJECT" =
      Some (mkFile (concat (replicate n multiGroup) ++ content f) (mode f)).
Proof.
  revert w f. induction n as [|n IH]; intros w f Hf Hr Hw.
  - exists w. split; [done|]. rewrite Hf. by destruct f.
  - cbn [times]. rewrite bind_run.
    pose proof (AllowProjectBeMultiGroup_run filepath_Join tc w) as Hrun.
    cbn zeta in Hrun. rewrite Hrun, Hf, Hr, Hw. clear Hrun.
    edestruct (IH (mkFS (<[filepath_Join (Dir (kb tc)) "PROJECT" :=
                            mkFile (multiGroup ++ content f) (mode f)]> (files w))
                     (calls w ++ [EvReadFile (filepath_Join (Dir (kb tc)) "PROJECT");
                                  EvWriteFile (filepath_Join (Dir (kb tc)) "PROJECT")
                                    (multiGroup ++ content f) 420]))
                 (mkFile (multiGroup ++ content f) (mode f)))
      as (w' & Hrun & Hfile).
    + cbn [files]. apply lookup_insert_eq.
    + done.
    + done.
    + exists w'. split; [done|]. rewrite Hfile. cbn [content mode replicate concat].
      by rewrite (app_assoc _ multiGroup), concat_replicate_comm, <- !app_assoc.
Qed.

(** Property X13. [ReplaceInFile] called a second time with the same
    arguments finds nothing to replace, when [old] and [new] are not
    empty and share no byte: it returns its error and leaves the file
    as the first call wrote it. *)
Theorem ReplaceInFile_again path old new w f :
  files w !! path = Some f → readable f = true → writable f = true →
  occurs old (content f) →
  old ≠ [] → new ≠ [] → (∀ c, c ∈ new → c ∉ old) →
  ∃ w1 w2,
    ReplaceInFile path old new w = (Ok tt, w1) ∧
    ReplaceInFile path old new w1 = (Err not_found, w2) ∧
    files w2 = files w1.
Proof.
  intros Hf Hr Hw Ho Hold Hnew Hdisj.
  assert (old ≠ new) as Hne.
  { intros ->. destruct new as [|c new]; [done|].
    apply (Hdisj c); by left. }
  rewrite ReplaceInFile_run, Hf, Hr, Hw.
  apply Contains_spec in Ho as ->. cbn zeta.
  eexists _, _. split; [done|].
  rewrite ReplaceInFile_run. cbn [files]. rewrite lookup_insert_eq.
  change (readable (mkFile ?c (mode f))) with (readable f). rewrite Hr.
  cbn [content].
  assert (strings.Contains (strings.Replace (content f) old new (-1)) old = false) as ->.
  { apply Contains_false. rewrite Replace_replace_all by done.
    rewrite occurs_prefix_drop. intros [j Hj].
    by eapply (replace_all_none_left old new Hold 0 (content f)). }
  done.
Qed.

End helpers_again.

(** * More on [UncommentCode] *)
Section uncomment_more.

Import bufio os.

Lemma cut_line_split data l r :
  cut_line data = (l, r) →
  data = (l ++ match r with Some r' => LF :: r' | None => [] end) ∧ LF ∉ l.
Proof.
  revert l r. induction data as [|c d IH]; intros l r; simpl.
  - intros [= <- <-]. split; [done|]. apply not_elem_of_nil.
  - destruct (decide (c = LF)) as [->|Hc].
    + intros [= <- <-]. split; [done|]. apply not_elem_of_nil.
    + destruct (cut_line d) as [l' r'] eqn:E. intros [= <- <-].
      destruct (IH _ _ eq_refl) as [Hd Hl]. split.
      * simpl. by rewrite <- Hd.
      * intros [?|?]%elem_of_cons; [by subst|done].
Qed.

Lemma Scan_true sc sc' :
  Scan sc = (true, sc') →
  ∃ l r, input sc = (l ++ match r with Some r' => LF :: r' | None => [] end) ∧
         input sc ≠ [] ∧ (LF ∉ l) ∧
         sc' = mkScanner (default [] r) (dropCR l) false.
Proof.
  unfold Scan. destruct (stopped sc); [discriminate|].
  destruct (input sc) as [|c d] eqn:Ei; [discriminate|].
  destruct (cut_line (c :: d)) as [l r] eqn:E.
  destruct (MaxScanTokenSize <=? len l); [discriminate|].
  intros [= <-]. apply cut_line_split in E as [E Hl]. by exists l, r.
Qed.

Lemma dropCR_length l : (length (dropCR l) ≤ length l)%nat.
Proof.
  unfold dropCR. destruct (reverse l) as [|c r] eqn:E; [done|].
  destruct (decide (c = CR)); [|done].
  rewrite <- (length_reverse l), E, length_reverse. simpl. lia.
Qed.

Lemma dropCR_id l : last l ≠ Some CR → dropCR l = l.
Proof.
  intros Hl. unfold dropCR. destruct (reverse l) as [|c r] eqn:E; [done|].
  destruct (decide (c = CR)) as [->|]; [|done]. destruct Hl.
  rewrite <- (reverse_involutive l), E, reverse_cons. apply last_snoc.
Qed.

Lemma TrimPrefix_length s p : (length (strings.TrimPrefix s p) ≤ length s)%nat.
Proof.
  unfold strings.TrimPrefix, slice_from. destruct (strings.HasPrefix s p); [|done].
  rewrite length_drop. lia.
Qed.

(** The loop writes no more than the line at hand and the lines still
    to read, each with its line feed. *)
Lemma uncomment_loop_length sc prefix :
  (length (testutils.uncomment_loop sc prefix []) ≤
   length (Text sc) +
   match input sc with [] => 0 | _ => S (length (input sc)) end)%nat.
Proof.
  assert (∃ n, length (input sc) < n)%nat as [n Hlt] by (eexists; apply Nat.lt_succ_diag_r).
  revert sc Hlt. induction n as [|n IH]; intros sc Hlt; [lia|].
  rewrite (uncomment_loop_unfold sc prefix []).
  pose proof (TrimPrefix_length (Text sc) prefix) as Ht.
  destruct (Scan sc) as [[] sc'] eqn:E.
  - pose proof (Scan_decreases _ _ E) as Hdec.
    specialize (IH sc' ltac:(lia)).
    apply Scan_true in E as (l & r & Ei & Hne & _ & ->).
    rewrite uncomment_loop_out, !length_app. cbn [Text token input] in *.
    pose proof (dropCR_length l) as Hl. rewrite Ei in Hne |- *.
    destruct r as [r|]; simpl in *.
    + destruct l; simpl; rewrite ?length_app; simpl; destruct r; simpl in *; lia.
    + rewrite app_nil_r in Hne |- *. destruct l; [done|]. simpl in *. lia.
  - rewrite app_nil_l. lia.
Qed.

Lemma uncomment_block_length target prefix :
  (length (uncomment_block target prefix) ≤ length target)%nat.
Proof.
  unfold uncomment_block.
  destruct (Scan (NewScanner target)) as [[] sc] eqn:E; [|done].
  pose proof (uncomment_loop_length sc prefix) as H.
  apply Scan_true in E as (l & r & Ei & _ & _ & ->).
  cbn [NewScanner Text token input] in *.
  pose proof (dropCR_length l) as Hl. rewrite Ei, length_app.
  destruct r as [r|]; simpl in *; [destruct r|]; simpl in *; lia.
Qed.

(** Property X14. [UncommentCode] never makes its file longer, and
    keeps its mode, whatever the block and the prefix. *)
Theorem UncommentCode_never_grows filename target prefix w w' f :
  files w !! filename = Some f →
  testutils.UncommentCode filename target prefix w = (Ok tt, w') →
  ∃ f', files w' !! filename = Some f' ∧
        (length (content f') ≤ length (content f))%nat ∧
        mode f' = mode f.
Proof.
  intros Hf. rewrite UncommentCode_run, Hf.
  destruct (readable f); [|done]. cbn zeta.
  destruct (_ <? 0) eqn:Hidx; [done|]. apply Z.ltb_ge in Hidx.
  destruct (Scan _).1.
  - destruct (writable f); [|done]. intros [= <-]. eexists. cbn [files].
    rewrite lookup_insert_eq. split; [done|]. split; [|done]. cbn [content].
    destruct (Index_split (content f) target Hidx) as [Hs _].
    apply (f_equal length) in Hs. rewrite !length_app in Hs. rewrite !length_app.
    pose proof (uncomment_block_length target prefix). lia.
  - intros [= <-]. by exists f.
Qed.

Lemma raw_lines_app_LF l s : LF ∉ l → raw_lines (l ++ LF :: s) = l :: raw_lines s.
Proof.
  induction l as [|c l IH]; intros Hl; simpl.
  - by destruct (decide (LF = LF)).
  - destruct (decide (c = LF)) as [->|]; [destruct Hl; by left|].
    rewrite IH; [done|]. intros H. apply Hl. by right.
Qed.

Lemma raw_lines_single l : l ≠ [] → LF ∉ l → raw_lines l = [l].
Proof.
  induction l as [|c l IH]; intros Hne Hl; [done|]. simpl.
  destruct (decide (c = LF)) as [->|]; [destruct Hl; by left|].
  destruct l as [|c' l']; [done|].
  rewrite IH; [done..|]. intros H. apply Hl. by right.
Qed.

Lemma raw_lines_join ls :
  Forall (λ l, l ≠ [] ∧ LF ∉ l) ls → raw_lines (join_lines ls) = ls.
Proof.
  induction 1 as [|l ls [Hne Hl] Hls IH]; [done|].
  destruct ls as [|l' ls'].
  - by apply raw_lines_single.
  - rewrite join_lines_cons. cbn [app]. rewrite raw_lines_app_LF by done. by rewrite IH.
Qed.


Lemma raw_lines_snoc_LF t :
  t ≠ [] → last t ≠ Some LF → raw_lines (t ++ [LF]) = raw_lines t.
Proof.
  induction t as [|c t IH]; intros Hne Hl; [done|].
  destruct t as [|c' t'].
  - simpl. destruct (decide (c = LF)) as [->|]; [done|].
    by destruct (decide (LF = LF)).
  - assert (raw_lines ((c' :: t') ++ [LF]) = raw_lines (c' :: t')) as IH' by by apply IH.
    change ((c :: c' :: t') ++ [LF]) with (c :: ((c' :: t') ++ [LF])).
    change (raw_lines (c :: ?s)) with
      (if decide (c = LF) then [] :: raw_lines s
       else match raw_lines s with [] => [[c]] | l :: ls => (c :: l) :: ls end).
    by rewrite IH'.
Qed.


(** The lines commented out with [prefix] come back when [prefix] is
    taken off, if no line has a line feed or a carriage return. *)
Lemma uncomment_block_comment_out prefix ls :
  prefix ≠ [] → LF ∉ prefix → CR ∉ prefix →
  Forall (λ l, (LF ∉ l) ∧ (CR ∉ l) ∧ len (prefix ++ l) < MaxScanTokenSize) ls →
  raw_lines (comment_out prefix ls) = map (λ l, prefix ++ l) ls ∧
  fits_scanner (comment_out prefix ls) ∧
  uncomment_block (comment_out prefix ls) prefix = join_lines ls.
Proof.
  intros Hp Hlf Hcr Hls.
  assert (raw_lines (comment_out prefix ls) = map (λ l, prefix ++ l) ls) as Hraw.
  { apply raw_lines_join, Forall_map. eapply Forall_impl; [done|].
    intros l (Hl & _ & _). simpl. split.
    - by destruct prefix.
    - intros [?|?]%elem_of_app; done. }
  assert (fits_scanner (comment_out prefix ls)) as Hfit.
  { intros l. rewrite Hraw. intros (l' & -> & Hl')%list_elem_of_fmap.
    by eapply Forall_forall in Hls as (_ & _ & ?). }
  split; [done|]. split; [done|].
  rewrite uncomment_block_uncommented by done. unfold uncommented.
  rewrite Hraw. f_equal. rewrite <- list_fmap_compose.
  rewrite <- (list_fmap_id ls) at 2. apply Forall_fmap_ext.
  eapply Forall_impl; [done|]. intros l (_ & Hl & _). simpl.
  rewrite dropCR_id; [apply TrimPrefix_app|].
  intros H. apply last_Some_elem_of in H.
  apply elem_of_app in H as [?|?]; done.
Qed.

(** Property X15. Round trip. Where a file holds lines commented out
    with [prefix] (lines without line feed or carriage return, that fit
    the scanner), and the block given is these lines without a line feed
    after the last, [UncommentCode] puts the lines themselves in
    their place. *)
Theorem UncommentCode_restores filename prefix ls a b w f :
  files w !! filename = Some f → readable f = true → writable f = true →
  content f = a ++ comment_out prefix ls ++ b →
  strings.Index (content f) (comment_out prefix ls) = len a →
  ls ≠ [] → prefix ≠ [] → LF ∉ prefix → CR ∉ prefix →
  Forall (λ l, (LF ∉ l) ∧ (CR ∉ l) ∧ len (prefix ++ l) < MaxScanTokenSize) ls →
  ∃ w',
    testutils.UncommentCode filename (comment_out prefix ls) prefix w = (Ok tt, w') ∧
    files w' !! filename = Some (mkFile (a ++ join_lines ls ++ b) (mode f)).
Proof.
  intros Hf Hr Hw Hc Hidx Hne Hp Hlf Hcr Hls.
  destruct (uncomment_block_comment_out prefix ls Hp Hlf Hcr Hls) as (Hraw & Hfit & Hblock).
  rewrite UncommentCode_run, Hf, Hr, Hw. cbn zeta. rewrite Hidx, Hblock.
  assert ((len a <? 0) = false) as -> by (apply Z.ltb_ge; unfold len; lia).
  rewrite Scan_first by done.
  rewrite bool_decide_eq_true_2.
  - eexists. split; [done|]. cbn [files]. rewrite lookup_insert_eq.
    do 2 f_equal. rewrite Hc, slice_to_len. do 2 f_equal.
    rewrite <- len_app, app_assoc. apply slice_from_len.
  - intros H. rewrite H in Hraw. by destruct ls.
Qed.

(** Property X16. A line feed that ends the block is not written back:
    the block with it and the block without it are replaced by the same
    text. *)
Theorem uncomment_block_final_LF target prefix :
  target ≠ [] → last target ≠ Some LF → fits_scanner target →
  uncomment_block (target ++ [LF]) prefix = uncomment_block target prefix.
Proof.
  intros Hne Hl Hfit.
  pose proof (raw_lines_snoc_LF target Hne Hl) as Hraw.
  rewrite !uncomment_block_uncommented; [|done|].
  - unfold uncommented. by rewrite Hraw.
  - intros l. rewrite Hraw. apply Hfit.
Qed.


End uncomment_more.

Section concrete_more.

Import os testutils.

Lemma teardown_uninstalls_both_witness :
  history (prerequisites_run "0.17.0" project provisioned).2 =
    history (InstallPrerequisites "0.17.0" project provisioned).2 ++
    [UninstallPrometheusOperManager;
     Run ["operator-sdk"; "olm"; "uninstall"]%string].
Proof.
  apply (teardown_uninstalls_both (λ d, d) (λ s, s)
           (λ binaryName _, Ok (mkKb "e2e-abcd" binaryName ""))
           "0.17.0" "operator-sdk" [] project provisioned).
  - reflexivity.
  - reflexivity.
Defined.

Lemma NewPartialTestContext_nothing_to_uninstall_witness :
  UninstallPrerequisites
    (mkTestContext
       (mkKb "/work/e2e-abcd" "operator-sdk" "quay.io/example/e2e-abcd:v0.0.1")
       "quay.io/example/e2e-abcd-bundle:v0.0.1" "e2e-abcd" false false)
    provisioned =
  (Ok tt, provisioned).
Proof.
  apply (NewPartialTestContext_nothing_to_uninstall (λ d, d) (λ s, s)
           (λ d, Ok ("/work/" +:+ d)) "operator-sdk" "e2e-abcd" []).
  reflexivity.
Defined.

Lemma context_image_names_witness :
  ImageName (kb project) = makeImageName (ProjectName project) ∧
  BundleImageName project = makeBundleImageName (ProjectName project) ∧
  ImageName (kb project) ≠ BundleImageName project.
Proof.
  apply (context_image_names (λ d, d) (λ s, s)
           (λ binaryName _, Ok (mkKb "e2e-abcd" binaryName ""))
           (λ d, Ok ("/work/" +:+ d)) "operator-sdk" "e2e-abcd" [] project).
  left. reflexivity.
Defined.


Lemma AllowProjectBeMultiGroup_times_witness :
  ∃ w',
    times 3 (AllowProjectBeMultiGroup join_slash project)
      (one_file "e2e-abcd/PROJECT" (str "domain: example.com") 384) = (Ok tt, w') ∧
    files w' !! join_slash (Dir (kb project)) "PROJECT" =
      Some (mkFile (concat (replicate 3 multiGroup) ++ str "domain: example.com") 384).
Proof.
  apply (AllowProjectBeMultiGroup_times join_slash 3 project
           (one_file "e2e-abcd/PROJECT" (str "domain: example.com") 384)
           (mkFile (str "domain: example.com") 384)).
  - vm_compute. reflexivity.
  - reflexivity.
  - reflexivity.
Defined.

Lemma ReplaceInFile_again_witness :
  ∃ w1 w2,
    ReplaceInFile "f" (str "line") (str "row") (one_file "f" commented 384) =
      (Ok tt, w1) ∧
    ReplaceInFile "f" (str "line") (str "row") w1 = (Err not_found, w2) ∧
    files w2 = files w1.
Proof.
  apply (ReplaceInFile_again "f" (str "line") (str "row")
           (one_file "f" commented 384) (mkFile commented 384)).
  - apply lookup_singleton_eq.
  - reflexivity.
  - reflexivity.
  - apply Contains_spec. reflexivity.
  - discriminate.
  - discriminate.
  - apply Forall_forall, (bool_decide_unpack _). vm_compute. exact I.
Defined.

Lemma UncommentCode_never_grows_witness :
  ∃ f',
    files (UncommentCode "f" block (str "// ") (one_file "f" commented 420)).2
      !! "f"%string = Some f' ∧
    (length (content f') ≤ length commented)%nat ∧ mode f' = 420.
Proof.
  apply (UncommentCode_never_grows "f" block (str "// ")
           (one_file "f" commented 420)
           (UncommentCode "f" block (str "// ") (one_file "f" commented 420)).2
           (mkFile commented 420)).
  - apply lookup_singleton_eq.
  - vm_compute. reflexivity.
Defined.

Lemma UncommentCode_restores_witness :
  ∃ w',
    UncommentCode "f" (comment_out (str "// ") [str "line1"; str "line2"]) (str "// ")
      (one_file "f" commented 420) = (Ok tt, w') ∧
    files w' !! "f"%string =
      Some (mkFile (str "x" ++ [LF] ++ join_lines [str "line1"; str "line2"] ++
                    [LF] ++ str "y" ++ [LF]) 420).
Proof.
  apply (UncommentCode_restores "f" (str "// ") [str "line1"; str "line2"]
           (str "x" ++ [LF]) ([LF] ++ str "y" ++ [LF])
           (one_file "f" commented 420) (mkFile commented 420)).
  - apply lookup_singleton_eq.
  - reflexivity.
  - reflexivity.
  - reflexivity.
  - reflexivity.
  - discriminate.
  - discriminate.
  - apply (bool_decide_unpack _). vm_compute. exact I.
  - apply (bool_decide_unpack _). vm_compute. exact I.
  - apply (bool_decide_unpack _). vm_compute. exact I.
Defined.

Lemma uncomment_block_final_LF_witness :
  uncomment_block (str "// line1" ++ [LF] ++ str "// line2" ++ [LF]) (str "// ") =
  uncomment_block (str "// line1" ++ [LF] ++ str "// line2") (str "// ").
Proof.
  apply (uncomment_block_final_LF (str "// line1" ++ [LF] ++ str "// line2")
           (str "// ")).
  - discriminate.
  - discriminate.
  - apply fits_scanner_Forall, (bool_decide_unpack _). vm_compute. exact I.
Defined.


End concrete_more.
